(** * ReSyne display LUT generator: a shallow embedding

    Source: [src/utilities/generate_resyne_display_lut.py].

    Numbers.  The script computes on Python floats; the specification's data
    model calls every channel "a real number".  Floats are embedded here as
    the real numbers [R] of the Standard Library: [math.pow] is [Rpower],
    [math.log2] is [ln x / ln 2], [math.sqrt] is [sqrt].  Rounding is
    outside this model and so are NaN and infinite inputs; overflow is
    modelled at the one place where an unclamped input is scaled, the hue
    of [map_to_preview_rgb].  Python [int] is [Z].

    Effects.  A Python call either returns or raises; code that mutates a
    local list or the file system runs in the state-and-exception monad
    [Py].  The file system maps a path, the list of its components, to the
    node found there: a directory or a regular file with its text. *)

From Stdlib Require Import Reals Lra Lia ZArith Bool Ascii String.
From Stdlib Require Import Zfloor DecimalString List.
Import ListNotations.

Open Scope R_scope.

(** ** Python values and exceptions *)

Inductive exn : Type :=
| ZeroDivisionError
| ValueError
| TypeError
| FileExistsError
| FileNotFoundError
| NotADirectoryError
| IsADirectoryError.

Inductive result (A : Type) : Type :=
| Ok (a : A)
| Raise (e : exn).

Arguments Ok {A} a.
Arguments Raise {A} e.

Definition rbind {A B : Type} (m : result A) (k : A -> result B) : result B :=
  match m with
  | Ok a => k a
  | Raise e => Raise e
  end.

Notation "x <- m ;; k" := (rbind m (fun x => k))
  (at level 61, m at next level, right associativity).

(** ** Python float primitives over [R] *)

Module PyFloat.

(** [max(a, b)]: the first argument unless the second is larger. *)
Definition max (a b : R) : R := if Rlt_dec a b then b else a.

(** [min(a, b)]: the first argument unless the second is smaller. *)
Definition min (a b : R) : R := if Rlt_dec b a then b else a.

(** [math.pow(x, y)] for a positive base. *)
Definition pow (x y : R) : R := Rpower x y.

(** [math.log2(x)] for a positive argument. *)
Definition log2 (x : R) : R := ln x / ln 2.

(** [math.sqrt(x)] raises [ValueError] on a negative argument. *)
Definition sqrt (x : R) : result R :=
  if Rlt_dec x 0 then Raise ValueError else Ok (R_sqrt.sqrt x).

(** [x % y] on floats with [y > 0]: the remainder has the sign of [y]. *)
Definition fmod (x y : R) : R := x - y * IZR (Zfloor (x / y)).

(** [int(x)] truncates towards zero. *)
Definition int (x : R) : Z := if Rle_dec 0 x then Zfloor x else Zceil x.

(** The least magnitude that rounds to an infinity in binary64: half an
    ulp above the largest finite float. *)
Definition OVERFLOW_Z : Z := Eval vm_compute in (2 ^ 1024 - 2 ^ 970)%Z.
Definition OVERFLOW : R := IZR OVERFLOW_Z.

(** Whether an arithmetic result of exact value [x] overflows. *)
Definition overflows (x : R) : {OVERFLOW <= Rabs x} + {~ OVERFLOW <= Rabs x} :=
  Rle_dec OVERFLOW (Rabs x).

(** [a / b] on two [int]s: true division. *)
Definition truediv (a b : Z) : result R :=
  if (b =? 0)%Z then Raise ZeroDivisionError else Ok (IZR a / IZR b).

End PyFloat.

(** ** Module constants *)

Definition DB_MIN : R := -120.
Definition DB_MAX : R := 20.
Definition DB_RANGE : R := DB_MAX - DB_MIN.
Definition MIN_FREQ : R := 20.
Definition MAX_FREQ : R := 20000.
Definition LOG_FREQ_MIN : R := PyFloat.log2 MIN_FREQ.
Definition LOG_FREQ_RANGE : R := PyFloat.log2 MAX_FREQ - LOG_FREQ_MIN.
Definition PHASE_OFFSET : R := 0.5.
Definition PHASE_SCALE : R := 0.5.
Definition MAX_AMPLITUDE : R := PyFloat.pow 10 (DB_MAX / 20).
Definition LUT_SIZE : Z := 33.

(** ** The colour mapper *)

(** The idiom [min(max(x, 0.0), 1.0)] that the script repeats. *)
Definition clamp01 (x : R) : R := PyFloat.min (PyFloat.max x 0) 1.

Definition denormalise_magnitude (value : R) : R :=
  let value := clamp01 value in
  let db := value * DB_RANGE + DB_MIN in
  PyFloat.pow 10 (db / 20).

Definition denormalise_frequency (value : R) : R :=
  let value := clamp01 value in
  let log_freq := LOG_FREQ_MIN + value * LOG_FREQ_RANGE in
  PyFloat.pow 2 log_freq.

Definition decode_cosine_component (encoded : R) : R :=
  (clamp01 encoded - PHASE_OFFSET) / PHASE_SCALE.

(** [colorsys.hsv_to_rgb] of the Python standard library.  The last branch
    is the fall-through after the six [if]s, where Python returns [None]. *)
Definition hsv_to_rgb (h s v : R) : option (R * R * R) :=
  if Req_dec_T s 0 then Some (v, v, v)
  else
    let i := PyFloat.int (h * 6) in
    let f := h * 6 - IZR i in
    let p := v * (1 - s) in
    let q := v * (1 - s * f) in
    let t := v * (1 - s * (1 - f)) in
    let i := (i mod 6)%Z in
    if (i =? 0)%Z then Some (v, t, p)
    else if (i =? 1)%Z then Some (q, v, p)
    else if (i =? 2)%Z then Some (p, v, t)
    else if (i =? 3)%Z then Some (p, q, v)
    else if (i =? 4)%Z then Some (t, p, v)
    else if (i =? 5)%Z then Some (v, p, q)
    else None.

(** The locals of [map_to_preview_rgb], each as a function of the inputs
    it depends on. *)
Module Preview.

Definition amplitude_ratio_arg (magnitude_norm : R) : R :=
  denormalise_magnitude magnitude_norm / MAX_AMPLITUDE.

Definition amplitude_ratio (magnitude_norm : R) : R :=
  clamp01 (amplitude_ratio_arg magnitude_norm).

Definition hue_degrees (frequency_norm : R) : R :=
  (1 - frequency_norm) * 280 + 20.

Definition hue (frequency_norm : R) : R :=
  PyFloat.fmod (hue_degrees frequency_norm) 360 / 360.

Definition saturation_arg (magnitude_norm : R) : R :=
  0.25 + amplitude_ratio magnitude_norm * 0.6.

Definition saturation (magnitude_norm : R) : R :=
  clamp01 (saturation_arg magnitude_norm).

Definition phase_weight (phase_cos_norm : R) : R :=
  0.55 + 0.45 * decode_cosine_component phase_cos_norm.

Definition value_arg (magnitude_norm phase_cos_norm : R) : R :=
  R_sqrt.sqrt (amplitude_ratio magnitude_norm) * phase_weight phase_cos_norm.

Definition value (magnitude_norm phase_cos_norm : R) : R :=
  clamp01 (value_arg magnitude_norm phase_cos_norm).

End Preview.

Definition rgb : Type := (R * R * R)%type.

Definition clamp_rgb (c : rgb) : rgb :=
  let '(r, g, b) := c in (clamp01 r, clamp01 g, clamp01 b).

(** The frequency is the one input scaled without a clamp.  When the
    product [(1.0 - frequency_norm) * 280.0] overflows, [hue_degrees] is an
    infinity and [hue], its remainder modulo 360 divided by 360, is NaN:
    [hsv_to_rgb] then returns [(v, v, v)] if the saturation is 0, before it
    looks at the hue, and raises [ValueError] at [int(h * 6.0)] otherwise.
    Without overflow the hue is the real number below. *)
Definition map_to_preview_rgb
    (magnitude_norm frequency_norm phase_cos_norm : R) : result rgb :=
  let magnitude := denormalise_magnitude magnitude_norm in
  let _unused := denormalise_frequency frequency_norm in
  let cos_phase := decode_cosine_component phase_cos_norm in
  let amplitude_ratio := clamp01 (magnitude / MAX_AMPLITUDE) in
  let hue_degrees := (1 - frequency_norm) * 280 + 20 in
  let hue := PyFloat.fmod hue_degrees 360 / 360 in
  let saturation := clamp01 (0.25 + amplitude_ratio * 0.6) in
  let phase_weight := 0.55 + 0.45 * cos_phase in
  root <- PyFloat.sqrt amplitude_ratio ;;
  let value := clamp01 (root * phase_weight) in
  if PyFloat.overflows ((1 - frequency_norm) * 280) then
    if Req_dec_T saturation 0 then Ok (clamp_rgb (value, value, value))
    else Raise ValueError
  else
    match hsv_to_rgb hue saturation value with
    | Some c => Ok (clamp_rgb c)
    | None => Raise TypeError
    end.

(** ** Stateful code: the state-and-exception monad *)

Definition Py (S A : Type) : Type := S -> result A * S.

Definition ret {S A : Type} (a : A) : Py S A := fun s => (Ok a, s).

Definition lift {S A : Type} (r : result A) : Py S A := fun s => (r, s).

Definition bind {S A B : Type} (m : Py S A) (k : A -> Py S B) : Py S B :=
  fun s =>
    match m s with
    | (Ok a, s') => k a s'
    | (Raise e, s') => (Raise e, s')
    end.

Notation "x <~ m ;; k" := (bind m (fun x => k))
  (at level 61, m at next level, right associativity).

(** [for x in xs: body(x)] *)
Fixpoint for_in {S A : Type} (xs : list A) (body : A -> Py S unit) : Py S unit :=
  match xs with
  | [] => ret tt
  | x :: xs' => _ <~ body x ;; for_in xs' body
  end.

(** [range(n)]: empty when [n <= 0]. *)
Definition range (n : Z) : list Z := map Z.of_nat (seq 0 (Z.to_nat n)).

(** ** The LUT generator *)

(** [samples.append(c)] *)
Definition append (c : rgb) : Py (list rgb) unit :=
  fun samples => (Ok tt, samples ++ [c]).

(** The three nested loops of [generate_lut], acting on the local list
    [samples]. *)
Definition generate_lut_loops (size : Z) : Py (list rgb) unit :=
  for_in (range size) (fun b =>
    phase_cos_norm <~ lift (PyFloat.truediv b (size - 1)) ;;
    for_in (range size) (fun g =>
      frequency_norm <~ lift (PyFloat.truediv g (size - 1)) ;;
      for_in (range size) (fun r =>
        magnitude_norm <~ lift (PyFloat.truediv r (size - 1)) ;;
        c <~ lift (map_to_preview_rgb magnitude_norm frequency_norm phase_cos_norm) ;;
        append c))).

Definition generate_lut (size : Z) : result (list rgb) :=
  match generate_lut_loops size [] with
  | (Ok _, samples) => Ok samples
  | (Raise e, _) => Raise e
  end.

(** The sample that the loops compute at the grid point [(r, g, b)], and
    the grid enumerated with [b] outermost and [r] innermost.  These two
    are reference definitions for the statements below, not code of the
    script. *)
Definition grid_sample (size r g b : Z) : rgb :=
  match
    map_to_preview_rgb (IZR r / IZR (size - 1)) (IZR g / IZR (size - 1))
      (IZR b / IZR (size - 1))
  with
  | Ok c => c
  | Raise _ => (0, 0, 0)
  end.

Definition lut_grid (size : Z) : list rgb :=
  flat_map (fun b =>
    flat_map (fun g =>
      flat_map (fun r => [grid_sample size r g b]) (range size))
      (range size))
    (range size).

(** ** Text formatting *)

(** The line feed and the double quote. *)
Definition nl : string := String "010"%char EmptyString.
Definition dquote : string := String "034"%char EmptyString.

(** [str(z)] of an [int], as an f-string field renders it. *)
Definition str_int (z : Z) : string := NilZero.string_of_int (Z.to_int z).

(** The [k] low decimal digits of [m], zero padded. *)
Fixpoint zdigits (k : nat) (m : Z) : string :=
  match k with
  | O => EmptyString
  | S k' =>
      (zdigits k' (m / 10)
       ++ String (ascii_of_nat (48 + Z.to_nat (m mod 10))) EmptyString)%string
  end.

(** Rounding to the nearest integer, ties to even. *)
Definition round_half_even (x : R) : Z :=
  let n := Zfloor x in
  let d := x - IZR n in
  if Rlt_dec d (1 / 2) then n
  else if Rlt_dec (1 / 2) d then (n + 1)%Z
  else if Z.even n then n else (n + 1)%Z.

(** The format field [{x:.6f}]. *)
Definition format_6f (x : R) : string :=
  let n := round_half_even (Rabs x * 1000000) in
  ((if Rlt_dec x 0 then "-" else EmptyString)
   ++ str_int (n / 1000000) ++ "." ++ zdigits 6 (n mod 1000000))%string.

(** ** Paths and the file system *)

Definition path : Type := list string.

Definition parent (p : path) : path := removelast p.

Definition joinpath (p : path) (c : string) : path := p ++ [c].

Notation "p // c" := (joinpath p c) (at level 40, left associativity).

Definition path_eqb (p q : path) : bool :=
  if list_eq_dec string_dec p q then true else false.

Inductive node : Type :=
| Dir
| File (content : string).

Definition FS : Type := path -> option node.

Definition fs_set (fs : FS) (p : path) (n : node) : FS :=
  fun q => if path_eqb p q then Some n else fs q.

(** The root directory always exists. *)
Definition fs_get (fs : FS) (p : path) : option node :=
  match p with
  | [] => Some Dir
  | _ => fs p
  end.

(** [p.mkdir(parents=True, exist_ok=True)], walking down from the prefix
    [done], which is a directory, through the components [todo]. *)
Fixpoint mkdir_from (done todo : path) : Py FS unit :=
  match todo with
  | [] => ret tt
  | c :: rest =>
      fun fs =>
        match fs_get fs (done // c) with
        | Some Dir => mkdir_from (done // c) rest fs
        | Some (File _) =>
            (Raise (match rest with
                    | [] => FileExistsError
                    | _ => NotADirectoryError
                    end), fs)
        | None => mkdir_from (done // c) rest (fs_set fs (done // c) Dir)
        end
  end.

Definition mkdir_parents_exist_ok (p : path) : Py FS unit := mkdir_from [] p.

(** [p.open("w")]: creates or truncates the regular file [p].  Of the
    ways the call can fail, the model has those that the shape of the tree
    decides; permissions, quotas and devices are not part of a [FS]. *)
Definition open_w (p : path) : Py FS unit :=
  fun fs =>
    match fs_get fs (parent p) with
    | None => (Raise FileNotFoundError, fs)
    | Some (File _) => (Raise NotADirectoryError, fs)
    | Some Dir =>
        match fs_get fs p with
        | Some Dir => (Raise IsADirectoryError, fs)
        | _ => (Ok tt, fs_set fs p (File EmptyString))
        end
    end.

(** [stream.write(s)] on the stream opened on [p].  The text reaches the
    file at once; a device that fails in the middle of a write is not
    modelled. *)
Definition write (p : path) (s : string) : Py FS unit :=
  fun fs =>
    match fs p with
    | Some (File content) => (Ok tt, fs_set fs p (File (content ++ s)))
    | _ => (Raise ValueError, fs)
    end.

(** ** The writer and the entry point *)

Definition TITLE_LINE : string :=
  ("TITLE " ++ dquote ++ "ReSyne Display (Magnitude/LogFreq/PhaseCos)"
   ++ dquote ++ nl)%string.

Definition write_cube_file (p : path) (size : Z) : Py FS unit :=
  samples <~ lift (generate_lut size) ;;
  _ <~ open_w p ;;
  _ <~ write p TITLE_LINE ;;
  _ <~ write p ("LUT_3D_SIZE " ++ str_int size ++ nl) ;;
  _ <~ write p ("DOMAIN_MIN 0.0 0.0 0.0" ++ nl) ;;
  _ <~ write p ("DOMAIN_MAX 1.0 1.0 1.0" ++ nl) ;;
  for_in samples (fun '(r, g, b) =>
    write p (format_6f r ++ " " ++ format_6f g ++ " " ++ format_6f b ++ nl)).

(** [main], given the resolved absolute path [Path(__file__).resolve()]
    of the script. *)
Definition main (script : path) : Py FS unit :=
  let output :=
    parent (parent script) // "assets" // "luts" // "ReSyne_Display_v1.cube" in
  _ <~ mkdir_parents_exist_ok (parent output) ;;
  write_cube_file output LUT_SIZE.

(** ** Reference definitions for the file content *)

(** A file system with nothing but the root directory. *)
Definition empty_fs : FS := fun _ => None.

Definition cat_lines (lines : list string) : string :=
  fold_right String.append EmptyString lines.

Definition header_lines (size : Z) : list string :=
  [ TITLE_LINE;
    ("LUT_3D_SIZE " ++ str_int size ++ nl)%string;
    ("DOMAIN_MIN 0.0 0.0 0.0" ++ nl)%string;
    ("DOMAIN_MAX 1.0 1.0 1.0" ++ nl)%string ].

Definition data_line (c : rgb) : string :=
  let '(r, g, b) := c in
  (format_6f r ++ " " ++ format_6f g ++ " " ++ format_6f b ++ nl)%string.

Definition cube_text (size : Z) (samples : list rgb) : string :=
  cat_lines (header_lines size ++ map data_line samples).

(** [d] is [base] extended by a non-empty prefix of [todo]: the directories
    that [mkdir_from base todo] visits. *)
Definition on_the_way (base todo d : path) : Prop :=
  exists pre suf, pre <> [] /\ todo = pre ++ suf /\ d = base ++ pre.

(** A colour whose three channels lie in [0, 1]. *)
Definition in_unit_cube (c : rgb) : Prop :=
  let '(r, g, b) := c in 0 <= r <= 1 /\ 0 <= g <= 1 /\ 0 <= b <= 1.

(** The number of line feeds in a text. *)
Fixpoint count_nl (s : string) : nat :=
  match s with
  | EmptyString => O
  | String c s' => ((if Ascii.eqb c "010"%char then 1 else 0) + count_nl s')%nat
  end.

(** * Properties *)

(** ** Clamping *)

Lemma clamp01_bounds (x : R) : 0 <= clamp01 x <= 1.
Proof.
  unfold clamp01, PyFloat.min, PyFloat.max.
  destruct (Rlt_dec x 0); destruct (Rlt_dec 1 _); lra.
Qed.

Lemma clamp01_id (x : R) : 0 <= x <= 1 -> clamp01 x = x.
Proof.
  intros Hx. unfold clamp01, PyFloat.min, PyFloat.max.
  destruct (Rlt_dec x 0); destruct (Rlt_dec 1 _); lra.
Qed.

Lemma clamp01_below (x : R) : x <= 0 -> clamp01 x = 0.
Proof.
  intros Hx. unfold clamp01, PyFloat.min, PyFloat.max.
  destruct (Rlt_dec x 0); destruct (Rlt_dec 1 _); lra.
Qed.

Lemma clamp01_above (x : R) : 1 <= x -> clamp01 x = 1.
Proof.
  intros Hx. unfold clamp01, PyFloat.min, PyFloat.max.
  destruct (Rlt_dec x 0); destruct (Rlt_dec 1 _); lra.
Qed.

Lemma clamp01_idem (x : R) : clamp01 (clamp01 x) = clamp01 x.
Proof. apply clamp01_id, clamp01_bounds. Qed.

Lemma clamp01_mono (x y : R) : x <= y -> clamp01 x <= clamp01 y.
Proof.
  intros Hxy. unfold clamp01, PyFloat.min, PyFloat.max.
  destruct (Rlt_dec x 0), (Rlt_dec y 0);
    repeat match goal with
           | |- context [Rlt_dec ?a ?b] => destruct (Rlt_dec a b)
           end; lra.
Qed.

(** ** Powers and logarithms *)

Lemma ln2_pos : 0 < ln 2.
Proof. rewrite <- ln_1. apply ln_increasing; lra. Qed.

Lemma pow2_log2 (x : R) : 0 < x -> PyFloat.pow 2 (PyFloat.log2 x) = x.
Proof.
  intros Hx. unfold PyFloat.pow, PyFloat.log2, Rpower.
  replace (ln x / ln 2 * ln 2) with (ln x).
  - now apply exp_ln.
  - field. pose proof ln2_pos. lra.
Qed.

Lemma log2_pow2 (y : R) : PyFloat.log2 (PyFloat.pow 2 y) = y.
Proof.
  unfold PyFloat.pow, PyFloat.log2. rewrite ln_Rpower.
  field. pose proof ln2_pos. lra.
Qed.

Lemma log2_lt (x y : R) : 0 < x -> x < y -> PyFloat.log2 x < PyFloat.log2 y.
Proof.
  intros Hx Hxy. unfold PyFloat.log2.
  apply Rmult_lt_compat_r.
  - apply Rinv_0_lt_compat, ln2_pos.
  - now apply ln_increasing.
Qed.

Lemma pow_le (b x y : R) : 1 <= b -> x <= y -> PyFloat.pow b x <= PyFloat.pow b y.
Proof. intros Hb Hxy. unfold PyFloat.pow. now apply Rle_Rpower. Qed.

Lemma pow_lt (b x y : R) : 1 < b -> x < y -> PyFloat.pow b x < PyFloat.pow b y.
Proof. intros Hb Hxy. unfold PyFloat.pow. now apply Rpower_lt. Qed.

Lemma pow_pos (b x : R) : 0 < PyFloat.pow b x.
Proof. unfold PyFloat.pow, Rpower. apply exp_pos. Qed.

Lemma MAX_AMPLITUDE_eq : MAX_AMPLITUDE = 10.
Proof.
  unfold MAX_AMPLITUDE, DB_MAX, PyFloat.pow.
  replace (20 / 20) with 1 by lra. apply Rpower_1; lra.
Qed.

Lemma LOG_FREQ_RANGE_pos : 0 < LOG_FREQ_RANGE.
Proof.
  unfold LOG_FREQ_RANGE, LOG_FREQ_MIN, MAX_FREQ, MIN_FREQ.
  assert (H : PyFloat.log2 20 < PyFloat.log2 20000) by (apply log2_lt; lra).
  lra.
Qed.

(** ** The three denormalisers *)

(** C5.  [denormalise_magnitude] clamps its argument, maps it linearly to a
    decibel level in [-120, 20] and returns ten to the power of a twentieth of
    that level; it is non-decreasing (so in particular on [0, 1]), its
    value at 0 is [10^(-120/20)] and its value at 1 is [10^(20/20) = 10]. *)
Theorem denormalise_magnitude_correct (v x y : R) :
  x <= y ->
  (let db := clamp01 v * 140 + -120 in
   -120 <= db <= 20 /\ denormalise_magnitude v = Rpower 10 (db / 20))
  /\ denormalise_magnitude x <= denormalise_magnitude y
  /\ denormalise_magnitude 0 = Rpower 10 (-120 / 20)
  /\ denormalise_magnitude 1 = Rpower 10 (20 / 20)
  /\ Rpower 10 (20 / 20) = 10.
Proof.
  intros Hxy. unfold denormalise_magnitude, DB_RANGE, DB_MAX, DB_MIN.
  repeat split.
  - pose proof (clamp01_bounds v). lra.
  - pose proof (clamp01_bounds v). lra.
  - unfold PyFloat.pow. f_equal. lra.
  - apply pow_le; [lra|]. pose proof (clamp01_mono x y Hxy). lra.
  - rewrite clamp01_id by lra. unfold PyFloat.pow. f_equal. lra.
  - rewrite clamp01_id by lra. unfold PyFloat.pow. f_equal. lra.
  - replace (20 / 20) with 1 by lra. apply Rpower_1; lra.
Qed.

Lemma denormalise_magnitude_correct_witness :
  denormalise_magnitude 0 <= denormalise_magnitude 1.
Proof.
  apply (denormalise_magnitude_correct 0 0 1). lra.
Defined.

(** C6.  [denormalise_frequency] clamps its argument and maps it linearly in
    base-2 logarithm between [log2 20] and [log2 20000]; its value at 0 is
    20, at 1 it is 20000, it is strictly increasing on [0, 1], and the
    base-2 logarithm of its value is affine in the argument there. *)
Theorem denormalise_frequency_correct (v x y : R) :
  0 <= x -> x < y -> y <= 1 ->
  (let log_freq :=
     PyFloat.log2 20 + clamp01 v * (PyFloat.log2 20000 - PyFloat.log2 20) in
   PyFloat.log2 20 <= log_freq <= PyFloat.log2 20000
   /\ denormalise_frequency v = Rpower 2 log_freq)
  /\ denormalise_frequency 0 = 20
  /\ denormalise_frequency 1 = 20000
  /\ denormalise_frequency x < denormalise_frequency y
  /\ PyFloat.log2 (denormalise_frequency x)
     = PyFloat.log2 20 + x * (PyFloat.log2 20000 - PyFloat.log2 20).
Proof.
  intros Hx Hxy Hy.
  pose proof LOG_FREQ_RANGE_pos as Hr.
  unfold denormalise_frequency.
  unfold LOG_FREQ_RANGE, LOG_FREQ_MIN, MAX_FREQ, MIN_FREQ in *.
  repeat split.
  - pose proof (clamp01_bounds v). nra.
  - pose proof (clamp01_bounds v). nra.
  - rewrite clamp01_id by lra.
    replace (_ + _) with (PyFloat.log2 20) by lra. apply pow2_log2; lra.
  - rewrite clamp01_id by lra.
    replace (_ + _) with (PyFloat.log2 20000) by lra. apply pow2_log2; lra.
  - apply pow_lt; [lra|]. rewrite !clamp01_id by lra. nra.
  - rewrite log2_pow2, clamp01_id by lra. reflexivity.
Qed.

Lemma denormalise_frequency_correct_witness :
  denormalise_frequency 0 < denormalise_frequency 1.
Proof.
  apply (denormalise_frequency_correct 0 0 1); lra.
Defined.

(** C7.  [decode_cosine_component] clamps its argument and inverts the
    encoding [cosine * 0.5 + 0.5]: it sends 0.5 to 0, 1 to 1 and 0 to -1,
    recovers every cosine in [-1, 1] from its encoding, and its result lies
    in [-1, 1] for every input. *)
Theorem decode_cosine_component_correct (encoded cosine : R) :
  -1 <= cosine <= 1 ->
  decode_cosine_component encoded = (clamp01 encoded - 0.5) / 0.5
  /\ decode_cosine_component (cosine * 0.5 + 0.5) = cosine
  /\ decode_cosine_component 0.5 = 0
  /\ decode_cosine_component 1 = 1
  /\ decode_cosine_component 0 = -1
  /\ -1 <= decode_cosine_component encoded <= 1.
Proof.
  intros Hc. unfold decode_cosine_component, PHASE_OFFSET, PHASE_SCALE.
  pose proof (clamp01_bounds encoded) as He.
  repeat split.
  - rewrite clamp01_id by lra. lra.
  - rewrite clamp01_id by lra. lra.
  - rewrite clamp01_id by lra. lra.
  - rewrite clamp01_id by lra. lra.
  - lra.
  - lra.
Qed.

Lemma decode_cosine_component_correct_witness :
  decode_cosine_component (-1 * 0.5 + 0.5) = -1.
Proof.
  apply (decode_cosine_component_correct 0 (-1)). lra.
Defined.

(** ** The intermediate values of the mapper *)

Lemma denormalise_magnitude_range (m : R) : 0 < denormalise_magnitude m <= 10.
Proof.
  split.
  - apply pow_pos.
  - apply Rle_trans with MAX_AMPLITUDE; [|rewrite MAX_AMPLITUDE_eq; lra].
    unfold denormalise_magnitude, MAX_AMPLITUDE, DB_RANGE, DB_MAX, DB_MIN.
    apply pow_le; [lra|]. pose proof (clamp01_bounds m). lra.
Qed.

Lemma amplitude_ratio_arg_range (m : R) : 0 < Preview.amplitude_ratio_arg m <= 1.
Proof.
  unfold Preview.amplitude_ratio_arg. rewrite MAX_AMPLITUDE_eq.
  pose proof (denormalise_magnitude_range m). lra.
Qed.

Lemma amplitude_ratio_unclamped (m : R) :
  Preview.amplitude_ratio m = Preview.amplitude_ratio_arg m.
Proof.
  unfold Preview.amplitude_ratio. apply clamp01_id.
  pose proof (amplitude_ratio_arg_range m). lra.
Qed.

Lemma saturation_arg_range (m : R) : 0.25 <= Preview.saturation_arg m <= 0.85.
Proof.
  unfold Preview.saturation_arg. rewrite amplitude_ratio_unclamped.
  pose proof (amplitude_ratio_arg_range m). lra.
Qed.

Lemma saturation_unclamped (m : R) :
  Preview.saturation m = Preview.saturation_arg m.
Proof.
  unfold Preview.saturation. apply clamp01_id.
  pose proof (saturation_arg_range m). lra.
Qed.

Lemma phase_weight_range (p : R) : 0.1 <= Preview.phase_weight p <= 1.
Proof.
  unfold Preview.phase_weight, decode_cosine_component, PHASE_OFFSET, PHASE_SCALE.
  pose proof (clamp01_bounds p). lra.
Qed.

Lemma sqrt_amplitude_ratio_range (m : R) :
  0 <= sqrt (Preview.amplitude_ratio m) <= 1.
Proof.
  rewrite amplitude_ratio_unclamped.
  pose proof (amplitude_ratio_arg_range m) as Hr. split.
  - apply sqrt_pos.
  - rewrite <- sqrt_1. apply sqrt_le_1; lra.
Qed.

Lemma value_arg_range (m p : R) : 0 <= Preview.value_arg m p <= 1.
Proof.
  unfold Preview.value_arg.
  pose proof (sqrt_amplitude_ratio_range m).
  pose proof (phase_weight_range p). nra.
Qed.

Lemma value_unclamped (m p : R) : Preview.value m p = Preview.value_arg m p.
Proof. unfold Preview.value. apply clamp01_id, value_arg_range. Qed.

(** The body of [map_to_preview_rgb] in terms of its named locals: the
    square root never raises, since its argument is a clamped value, and
    the saturation is never 0, so an overflowing hue always raises. *)
Lemma map_to_preview_rgb_locals (m f p : R) :
  map_to_preview_rgb m f p =
  if PyFloat.overflows ((1 - f) * 280) then Raise ValueError
  else
    match
      hsv_to_rgb (Preview.hue f) (Preview.saturation m) (Preview.value m p)
    with
    | Some c => Ok (clamp_rgb c)
    | None => Raise TypeError
    end.
Proof.
  unfold map_to_preview_rgb.
  change (clamp01 (denormalise_magnitude m / MAX_AMPLITUDE))
    with (Preview.amplitude_ratio m).
  change (clamp01 (0.25 + Preview.amplitude_ratio m * 0.6))
    with (Preview.saturation m).
  unfold PyFloat.sqrt.
  destruct (Rlt_dec (Preview.amplitude_ratio m) 0) as [Hneg|_].
  - unfold Preview.amplitude_ratio in Hneg.
    pose proof (clamp01_bounds (Preview.amplitude_ratio_arg m)). lra.
  - cbn [rbind].
    destruct (Req_dec_T (Preview.saturation m) 0) as [Hzero|_]; [|reflexivity].
    pose proof (saturation_arg_range m) as Hs.
    rewrite <- saturation_unclamped in Hs. lra.
Qed.

(** ** Overflow of the hue *)

Lemma OVERFLOW_above_million : 1000000 < PyFloat.OVERFLOW.
Proof. unfold PyFloat.OVERFLOW. apply IZR_lt. reflexivity. Qed.

Lemma no_overflow (x : R) (T : Type) (a b : T) :
  Rabs x < PyFloat.OVERFLOW -> (if PyFloat.overflows x then a else b) = b.
Proof.
  intros Hx. destruct (PyFloat.overflows x) as [Hover|_]; [lra|reflexivity].
Qed.

Lemma overflow (x : R) (T : Type) (a b : T) :
  PyFloat.OVERFLOW <= Rabs x -> (if PyFloat.overflows x then a else b) = a.
Proof.
  intros Hx. destruct (PyFloat.overflows x) as [_|Hfine];
    [reflexivity|contradiction].
Qed.

Lemma hue_scaling_bound (f bound : R) :
  Rabs f <= bound -> Rabs ((1 - f) * 280) <= (1 + bound) * 280.
Proof.
  intros Hf. rewrite Rabs_mult, (Rabs_pos_eq 280) by lra.
  apply Rmult_le_compat_r; [lra|].
  unfold Rabs in *. destruct (Rcase_abs f); destruct (Rcase_abs (1 - f)); lra.
Qed.

Lemma no_overflow_small_frequency (f : R) :
  Rabs f <= 1000 -> Rabs ((1 - f) * 280) < PyFloat.OVERFLOW.
Proof.
  intros Hf. pose proof (hue_scaling_bound f 1000 Hf).
  pose proof OVERFLOW_above_million. lra.
Qed.

Lemma no_overflow_frequency (f : R) :
  Rabs f <= IZR (2 ^ 1015) -> Rabs ((1 - f) * 280) < PyFloat.OVERFLOW.
Proof.
  intros Hf. pose proof (hue_scaling_bound f _ Hf) as Hb.
  apply Rle_lt_trans with (1 := Hb).
  change 1 with (IZR 1) at 1. change 280 with (IZR 280).
  rewrite <- plus_IZR, <- mult_IZR. unfold PyFloat.OVERFLOW.
  apply IZR_lt. reflexivity.
Qed.

Lemma overflow_at_2_1020 :
  PyFloat.OVERFLOW <= Rabs ((1 - IZR (2 ^ 1020)) * 280).
Proof.
  change 1 with (IZR 1) at 1. change 280 with (IZR 280).
  rewrite <- minus_IZR, <- mult_IZR, <- abs_IZR. unfold PyFloat.OVERFLOW.
  apply IZR_le. intros H. discriminate H.
Qed.

(** ** The colour conversion never falls through *)

Lemma hsv_to_rgb_total (h s v : R) : exists c, hsv_to_rgb h s v = Some c.
Proof.
  unfold hsv_to_rgb. destruct (Req_dec_T s 0); [eauto|].
  pose proof (Z.mod_pos_bound (PyFloat.int (h * 6)) 6 ltac:(lia)) as Hi.
  set (i := (PyFloat.int (h * 6) mod 6)%Z) in *.
  destruct (i =? 0)%Z eqn:E0; [eauto|].
  destruct (i =? 1)%Z eqn:E1; [eauto|].
  destruct (i =? 2)%Z eqn:E2; [eauto|].
  destruct (i =? 3)%Z eqn:E3; [eauto|].
  destruct (i =? 4)%Z eqn:E4; [eauto|].
  destruct (i =? 5)%Z eqn:E5; [eauto|].
  lia.
Qed.

Lemma map_to_preview_rgb_total (m f p : R) :
  Rabs ((1 - f) * 280) < PyFloat.OVERFLOW ->
  exists r g b,
    map_to_preview_rgb m f p = Ok (r, g, b)
    /\ 0 <= r <= 1 /\ 0 <= g <= 1 /\ 0 <= b <= 1.
Proof.
  intros Hfine. rewrite map_to_preview_rgb_locals, no_overflow by assumption.
  destruct (hsv_to_rgb_total (Preview.hue f) (Preview.saturation m)
              (Preview.value m p)) as [[[r g] b] ->].
  exists (clamp01 r), (clamp01 g), (clamp01 b).
  split; [reflexivity|]. auto using clamp01_bounds.
Qed.

Lemma map_to_preview_rgb_overflow (m f p : R) :
  PyFloat.OVERFLOW <= Rabs ((1 - f) * 280) ->
  map_to_preview_rgb m f p = Raise ValueError.
Proof.
  intros Hover. now rewrite map_to_preview_rgb_locals, overflow.
Qed.

(** The sixth sector, hues from 5/6 up to 1, on an example: a hue of 315
    degrees at half saturation is [(1, 0.5, 0.875)]. *)
Example hsv_to_rgb_sector_5 : hsv_to_rgb 0.875 0.5 1 = Some (1, 0.5, 0.875).
Proof.
  unfold hsv_to_rgb. destruct (Req_dec_T 0.5 0) as [E|_]; [lra|].
  assert (Hi : PyFloat.int (0.875 * 6) = 5%Z).
  { unfold PyFloat.int. destruct (Rle_dec 0 (0.875 * 6)); [|lra].
    apply Zfloor_eq. lra. }
  rewrite Hi. change ((5 mod 6)%Z) with 5%Z. cbn [Z.eqb Pos.eqb].
  apply f_equal. apply injective_projections; cbn [fst snd];
    [apply injective_projections; cbn [fst snd]|]; lra.
Qed.

(** C1, as stated, fails: the frequency [2^1020] is a finite float, the
    hue it gives overflows, and the call raises [ValueError] instead of
    returning a colour. *)
Lemma map_to_preview_rgb_raises_on_hue_overflow :
  map_to_preview_rgb 0 (IZR (2 ^ 1020)) 0 = Raise ValueError
  /\ ~ exists r g b,
        map_to_preview_rgb 0 (IZR (2 ^ 1020)) 0 = Ok (r, g, b)
        /\ 0 <= r <= 1 /\ 0 <= g <= 1 /\ 0 <= b <= 1.
Proof.
  assert (H : map_to_preview_rgb 0 (IZR (2 ^ 1020)) 0 = Raise ValueError)
    by apply map_to_preview_rgb_overflow, overflow_at_2_1020.
  split; [exact H|].
  intros (r & g & b & Hok & _). rewrite H in Hok. discriminate.
Qed.

(** C1, amended.  For every input triple whose scaled frequency
    [(1 - frequency_norm) * 280] does not overflow, which holds whenever
    the frequency is at most [2^1015] in magnitude and so for inputs such
    as -0.5 or 1.5, [map_to_preview_rgb] returns (it does not raise) three
    values that each lie in [0, 1].  When that product overflows the call
    raises [ValueError]. *)
Theorem map_to_preview_rgb_in_unit_cube (m f p : R) :
  (Rabs f <= IZR (2 ^ 1015) -> Rabs ((1 - f) * 280) < PyFloat.OVERFLOW)
  /\ (Rabs ((1 - f) * 280) < PyFloat.OVERFLOW ->
      exists r g b,
        map_to_preview_rgb m f p = Ok (r, g, b)
        /\ 0 <= r <= 1 /\ 0 <= g <= 1 /\ 0 <= b <= 1)
  /\ (PyFloat.OVERFLOW <= Rabs ((1 - f) * 280) ->
      map_to_preview_rgb m f p = Raise ValueError).
Proof.
  split; [apply no_overflow_frequency|].
  split; [apply map_to_preview_rgb_total|apply map_to_preview_rgb_overflow].
Qed.

Lemma map_to_preview_rgb_in_unit_cube_witness :
  exists r g b,
    map_to_preview_rgb (-0.5) 1.5 1.5 = Ok (r, g, b)
    /\ 0 <= r <= 1 /\ 0 <= g <= 1 /\ 0 <= b <= 1.
Proof.
  apply (proj1 (proj2 (map_to_preview_rgb_in_unit_cube (-0.5) 1.5 1.5))).
  apply no_overflow_small_frequency.
  unfold Rabs. destruct (Rcase_abs 1.5); lra.
Defined.


(** ** Which inputs are clamped *)

Lemma denormalise_magnitude_clamp (m : R) :
  denormalise_magnitude (clamp01 m) = denormalise_magnitude m.
Proof. unfold denormalise_magnitude. now rewrite clamp01_idem. Qed.

Lemma decode_cosine_component_clamp (p : R) :
  decode_cosine_component (clamp01 p) = decode_cosine_component p.
Proof. unfold decode_cosine_component. now rewrite clamp01_idem. Qed.

Lemma map_to_preview_rgb_clamp_m_p (m f p : R) :
  map_to_preview_rgb m f p = map_to_preview_rgb (clamp01 m) f (clamp01 p).
Proof.
  unfold map_to_preview_rgb.
  now rewrite denormalise_magnitude_clamp, decode_cosine_component_clamp.
Qed.

Lemma denormalise_magnitude_full_scale : denormalise_magnitude 1 = 10.
Proof.
  unfold denormalise_magnitude, DB_RANGE, DB_MAX, DB_MIN, PyFloat.pow.
  rewrite clamp01_id by lra.
  replace ((1 * (20 - -120) + -120) / 20) with 1 by lra.
  apply Rpower_1; lra.
Qed.

(** Full-scale magnitude and phase: saturation 0.85 and value 1. *)
Lemma saturation_full_scale : Preview.saturation 1 = 0.85.
Proof.
  rewrite saturation_unclamped. unfold Preview.saturation_arg.
  rewrite amplitude_ratio_unclamped. unfold Preview.amplitude_ratio_arg.
  rewrite denormalise_magnitude_full_scale, MAX_AMPLITUDE_eq. lra.
Qed.

Lemma value_full_scale : Preview.value 1 1 = 1.
Proof.
  rewrite value_unclamped. unfold Preview.value_arg.
  rewrite amplitude_ratio_unclamped. unfold Preview.amplitude_ratio_arg.
  rewrite denormalise_magnitude_full_scale, MAX_AMPLITUDE_eq. replace (10 / 10) with 1 by lra. rewrite sqrt_1.
  unfold Preview.phase_weight, decode_cosine_component, PHASE_OFFSET, PHASE_SCALE.
  rewrite clamp01_id by lra. lra.
Qed.

Lemma hue_at_1 : Preview.hue 1 = 1 / 18.
Proof.
  unfold Preview.hue, Preview.hue_degrees, PyFloat.fmod.
  rewrite (Zfloor_eq 0) by lra. lra.
Qed.

Lemma hue_at_1_5 : Preview.hue 1.5 = 2 / 3.
Proof.
  unfold Preview.hue, Preview.hue_degrees, PyFloat.fmod.
  rewrite (Zfloor_eq (-1)) by lra. lra.
Qed.

Lemma preview_rgb_at_1_1_1 : map_to_preview_rgb 1 1 1 = Ok (1, 13 / 30, 0.15).
Proof.
  rewrite map_to_preview_rgb_locals, no_overflow
    by (replace ((1 - 1) * 280) with 0 by lra; rewrite Rabs_R0;
        pose proof OVERFLOW_above_million; lra).
  rewrite saturation_full_scale, value_full_scale, hue_at_1.
  unfold hsv_to_rgb. destruct (Req_dec_T 0.85 0) as [E|_]; [lra|].
  assert (Hi : PyFloat.int (1 / 18 * 6) = 0%Z).
  { unfold PyFloat.int. destruct (Rle_dec 0 (1 / 18 * 6)); [|lra].
    apply Zfloor_eq. lra. }
  rewrite Hi. change ((0 mod 6)%Z) with 0%Z. cbn [Z.eqb].
  unfold clamp_rgb. rewrite !clamp01_id by lra.
  apply f_equal. apply injective_projections; cbn [fst snd];
    [apply injective_projections; cbn [fst snd]|]; lra.
Qed.

Lemma preview_rgb_at_1_1_5_1 :
  map_to_preview_rgb 1 1.5 1 = Ok (0.15, 0.15, 1).
Proof.
  rewrite map_to_preview_rgb_locals, no_overflow
    by (replace ((1 - 1.5) * 280) with (- (140)) by lra;
        rewrite Rabs_Ropp, Rabs_pos_eq by lra;
        pose proof OVERFLOW_above_million; lra).
  rewrite saturation_full_scale, value_full_scale, hue_at_1_5.
  unfold hsv_to_rgb. destruct (Req_dec_T 0.85 0) as [E|_]; [lra|].
  assert (Hi : PyFloat.int (2 / 3 * 6) = 4%Z).
  { unfold PyFloat.int. destruct (Rle_dec 0 (2 / 3 * 6)); [|lra].
    apply Zfloor_eq. lra. }
  rewrite Hi. change ((4 mod 6)%Z) with 4%Z. cbn [Z.eqb Pos.eqb].
  unfold clamp_rgb. rewrite !clamp01_id by lra.
  apply f_equal. apply injective_projections; cbn [fst snd];
    [apply injective_projections; cbn [fst snd]|]; lra.
Qed.

(** C4, as stated, fails: a frequency of 1.5 is not treated as its clamp 1;
    with full-scale magnitude and phase the two colours are a blue,
    [(0.15, 0.15, 1)], and an orange, [(1, 13/30, 0.15)]. *)
Lemma frequency_input_not_clamped :
  map_to_preview_rgb 1 1.5 1
  <> map_to_preview_rgb (clamp01 1) (clamp01 1.5) (clamp01 1).
Proof.
  rewrite (clamp01_id 1) by lra. rewrite (clamp01_above 1.5) by lra.
  rewrite preview_rgb_at_1_1_1, preview_rgb_at_1_1_5_1.
  intros H. injection H as H _ _. lra.
Qed.

(** The hue is a fraction of the colour wheel whatever the frequency. *)
Lemma hue_wraps (f : R) : 0 <= Preview.hue f < 1.
Proof.
  unfold Preview.hue, PyFloat.fmod.
  pose proof (Zfloor_bound (Preview.hue_degrees f / 360)). lra.
Qed.

(** C4, amended.  The magnitude and the phase inputs are clamped into
    [0, 1] before use: the result at [(m, f, p)] is the result at
    [(clamp m, f, clamp p)].  The frequency input is used as it is, and the
    hue it gives is wrapped modulo 360 degrees into [0, 1); so the result
    is the one at the fully clamped triple whenever the frequency already
    lies in [0, 1]. *)
Theorem map_to_preview_rgb_clamps_magnitude_and_phase (m f p : R) :
  map_to_preview_rgb m f p = map_to_preview_rgb (clamp01 m) f (clamp01 p)
  /\ 0 <= Preview.hue f < 1
  /\ (0 <= f <= 1 ->
      map_to_preview_rgb m f p
      = map_to_preview_rgb (clamp01 m) (clamp01 f) (clamp01 p)).
Proof.
  split; [apply map_to_preview_rgb_clamp_m_p|].
  split; [apply hue_wraps|].
  intros Hf. rewrite (clamp01_id f Hf). apply map_to_preview_rgb_clamp_m_p.
Qed.

Lemma map_to_preview_rgb_clamps_magnitude_and_phase_witness :
  map_to_preview_rgb 1.5 0.5 (-0.5)
  = map_to_preview_rgb (clamp01 1.5) (clamp01 0.5) (clamp01 (-0.5)).
Proof.
  apply (map_to_preview_rgb_clamps_magnitude_and_phase 1.5 0.5 (-0.5)). lra.
Defined.

(** ** Loops that only append *)

Lemma range_In (n x : Z) : In x (range n) -> (0 <= x < n)%Z.
Proof.
  unfold range. intros H. apply in_map_iff in H.
  destruct H as (k & <- & Hk). apply in_seq in Hk. lia.
Qed.

Lemma grid_coordinate_range (size k : Z) :
  (0 <= k < size)%Z -> (2 <= size)%Z -> 0 <= IZR k / IZR (size - 1) <= 1.
Proof.
  intros Hk Hsize.
  assert (Hd : 0 < IZR (size - 1)) by (apply IZR_lt; lia).
  assert (Hk0 : 0 <= IZR k) by (apply IZR_le; lia).
  assert (Hk1 : IZR k <= IZR (size - 1)) by (apply IZR_le; lia).
  split.
  - apply Rmult_le_pos; [assumption|]. left. now apply Rinv_0_lt_compat.
  - apply (Rmult_le_reg_r (IZR (size - 1))); [assumption|].
    unfold Rdiv. rewrite Rmult_assoc, Rinv_l by lra. lra.
Qed.

(** On the grid the frequency is in [0, 1] and the hue cannot overflow. *)
Lemma map_to_preview_rgb_grid_sample (size r g b : Z) :
  (0 <= g < size)%Z -> size <> 1%Z ->
  map_to_preview_rgb (IZR r / IZR (size - 1)) (IZR g / IZR (size - 1))
    (IZR b / IZR (size - 1))
  = Ok (grid_sample size r g b).
Proof.
  intros Hg Hone. unfold grid_sample.
  destruct (map_to_preview_rgb_total (IZR r / IZR (size - 1))
              (IZR g / IZR (size - 1)) (IZR b / IZR (size - 1)))
    as (cr & cg & cb & -> & _); [|reflexivity].
  apply no_overflow_small_frequency.
  pose proof (grid_coordinate_range size g Hg ltac:(lia)).
  rewrite Rabs_pos_eq; lra.
Qed.

Lemma truediv_nonzero (a b : Z) :
  b <> 0%Z -> PyFloat.truediv a b = Ok (IZR a / IZR b).
Proof.
  intros Hb. unfold PyFloat.truediv.
  destruct (Z.eqb_spec b 0); [contradiction|reflexivity].
Qed.

Section ForInAppend.

Context {A B : Type}.
Variable body : A -> Py (list B) unit.
Variable produced : A -> list B.

Lemma for_in_appends (xs : list A) :
  (forall x s, In x xs -> body x s = (Ok tt, s ++ produced x)) ->
  forall s, for_in xs body s = (Ok tt, s ++ flat_map produced xs).
Proof.
  induction xs as [|x xs IH]; intros Hbody s; cbn [for_in flat_map].
  - unfold ret. now rewrite app_nil_r.
  - unfold bind. rewrite Hbody by now left.
    rewrite IH by (intros; apply Hbody; now right).
    now rewrite app_assoc.
Qed.

End ForInAppend.

Lemma generate_lut_loops_grid (size : Z) (s : list rgb) :
  (size - 1 <> 0)%Z ->
  generate_lut_loops size s = (Ok tt, s ++ lut_grid size).
Proof.
  intros Hsize. unfold generate_lut_loops, lut_grid.
  apply for_in_appends. intros b s1 _.
  unfold bind at 1, lift at 1. rewrite truediv_nonzero by assumption.
  apply for_in_appends. intros g s2 Hg. apply range_In in Hg.
  unfold bind at 1, lift at 1. rewrite truediv_nonzero by assumption.
  apply for_in_appends. intros r s3 _.
  unfold bind, lift. rewrite truediv_nonzero by assumption.
  rewrite map_to_preview_rgb_grid_sample by (assumption || lia). reflexivity.
Qed.

Lemma generate_lut_grid (size : Z) :
  (size - 1 <> 0)%Z -> generate_lut size = Ok (lut_grid size).
Proof.
  intros Hsize. unfold generate_lut.
  now rewrite generate_lut_loops_grid.
Qed.

Lemma range_nonpositive (n : Z) : (n <= 0)%Z -> range n = [].
Proof.
  intros Hn. unfold range.
  replace (Z.to_nat n) with O by lia. reflexivity.
Qed.

Lemma generate_lut_loops_one :
  generate_lut_loops 1 [] = (Raise ZeroDivisionError, []).
Proof. reflexivity. Qed.

(** ** Indexing a nested enumeration *)

Section UniformFlatMap.

Context {A B : Type}.
Variable produced : A -> list B.
Variable k : nat.
Hypothesis produced_length : forall x, length (produced x) = k.

Lemma flat_map_uniform_length (xs : list A) :
  length (flat_map produced xs) = (length xs * k)%nat.
Proof.
  induction xs as [|x xs IH]; cbn [flat_map length]; [reflexivity|].
  rewrite length_app, produced_length, IH. lia.
Qed.

Lemma flat_map_uniform_nth_error (xs : list A) (q r : nat) (x : A) :
  (r < k)%nat ->
  nth_error xs q = Some x ->
  nth_error (flat_map produced xs) (q * k + r) = nth_error (produced x) r.
Proof.
  intros Hr. revert q.
  induction xs as [|y xs IH]; intros [|q] Hq; cbn in Hq; try discriminate.
  - injection Hq as ->. cbn [flat_map Nat.mul Nat.add].
    apply nth_error_app1. now rewrite produced_length.
  - cbn [flat_map]. rewrite nth_error_app2; rewrite produced_length; [|lia].
    replace (S q * k + r - k)%nat with (q * k + r)%nat by lia.
    now apply IH.
Qed.

End UniformFlatMap.

Lemma range_length (n : Z) : length (range n) = Z.to_nat n.
Proof. unfold range. now rewrite length_map, length_seq. Qed.

Lemma range_nth_error (n : Z) (q : nat) :
  (q < Z.to_nat n)%nat -> nth_error (range n) q = Some (Z.of_nat q).
Proof.
  intros Hq. unfold range.
  rewrite nth_error_map, nth_error_seq.
  destruct (Nat.ltb_spec q (Z.to_nat n)); [reflexivity|lia].
Qed.

Lemma lut_grid_length (size : Z) :
  length (lut_grid size) = (Z.to_nat size * (Z.to_nat size * Z.to_nat size))%nat.
Proof.
  unfold lut_grid.
  rewrite (flat_map_uniform_length _ (Z.to_nat size * Z.to_nat size)%nat).
  - now rewrite range_length.
  - intros b. rewrite (flat_map_uniform_length _ (Z.to_nat size)).
    + now rewrite range_length.
    + intros g. rewrite (flat_map_uniform_length _ 1%nat) by reflexivity.
      rewrite range_length. lia.
Qed.

Lemma lut_grid_nth_error (size : Z) (r g b : nat) :
  (r < Z.to_nat size)%nat -> (g < Z.to_nat size)%nat -> (b < Z.to_nat size)%nat ->
  nth_error (lut_grid size)
    (b * (Z.to_nat size * Z.to_nat size) + (g * Z.to_nat size + r))
  = Some (grid_sample size (Z.of_nat r) (Z.of_nat g) (Z.of_nat b)).
Proof.
  intros Hr Hg Hb. set (n := Z.to_nat size) in *. unfold lut_grid.
  assert (Hinner : forall b' g' : Z,
    length (flat_map (fun r' => [grid_sample size r' g' b']) (range size)) = n).
  { intros. rewrite (flat_map_uniform_length _ 1%nat) by reflexivity.
    rewrite range_length. fold n. lia. }
  assert (Hmiddle : forall b' : Z,
    length (flat_map (fun g' =>
      flat_map (fun r' => [grid_sample size r' g' b']) (range size))
      (range size)) = (n * n)%nat).
  { intros. rewrite (flat_map_uniform_length _ n) by (intros; apply Hinner).
    now rewrite range_length. }
  rewrite (flat_map_uniform_nth_error
             (fun b' => flat_map (fun g' =>
                flat_map (fun r' => [grid_sample size r' g' b']) (range size))
                (range size))
             (n * n)%nat Hmiddle (range size) b (g * n + r) (Z.of_nat b));
    [|nia|now apply range_nth_error].
  rewrite (flat_map_uniform_nth_error
             (fun g' =>
                flat_map (fun r' => [grid_sample size r' g' (Z.of_nat b)])
                  (range size))
             n (Hinner (Z.of_nat b)) (range size) g r (Z.of_nat g));
    [|lia|now apply range_nth_error].
  replace r with (r * 1 + 0)%nat at 1 by lia.
  rewrite (flat_map_uniform_nth_error
             (fun r' => [grid_sample size r' (Z.of_nat g) (Z.of_nat b)])
             1%nat (fun _ => eq_refl) (range size) r 0 (Z.of_nat r));
    [reflexivity|lia|now apply range_nth_error].
Qed.

(** The index arithmetic of the enumeration, on [int]s. *)
Lemma grid_index_split (size i : Z) :
  (0 <= i < size ^ 3)%Z ->
  let r := (i mod size)%Z in
  let g := ((i / size) mod size)%Z in
  let b := (i / size ^ 2)%Z in
  (0 <= r < size)%Z /\ (0 <= g < size)%Z /\ (0 <= b < size)%Z
  /\ i = (b * (size * size) + (g * size + r))%Z.
Proof.
  intros Hi.
  assert (Hsize : (0 < size)%Z).
  { destruct (Z.ltb_spec 0 size) as [H|H]; [exact H|].
    destruct (Z.eq_dec size 0) as [->|Hne]; [cbn in Hi; lia|].
    assert (size ^ 3 = size * size * size)%Z by ring.
    assert (0 <= size * size)%Z by nia. nia. }
  cbv zeta.
  replace (size ^ 2)%Z with (size * size)%Z by ring.
  rewrite <- Z.div_div by lia.
  pose proof (Z.mod_pos_bound i size Hsize).
  pose proof (Z.mod_pos_bound (i / size) size Hsize).
  pose proof (Z.div_mod i size ltac:(lia)) as Hd1.
  pose proof (Z.div_mod (i / size) size ltac:(lia)) as Hd2.
  assert (0 <= i / size)%Z by (apply Z.div_pos; lia).
  assert (0 <= i / size / size)%Z by (apply Z.div_pos; lia).
  assert (i / size / size < size)%Z.
  { apply Z.div_lt_upper_bound; [lia|]. apply Z.div_lt_upper_bound; [lia|].
    replace (size * (size * size))%Z with (size ^ 3)%Z by ring. lia. }
  repeat split; lia.
Qed.

(** ** The generator *)

Lemma generate_lut_one : generate_lut 1 = Raise ZeroDivisionError.
Proof. reflexivity. Qed.

Lemma generate_lut_nonpositive (size : Z) :
  (size <= 0)%Z -> generate_lut size = Ok [].
Proof.
  intros Hsize. unfold generate_lut, generate_lut_loops.
  now rewrite range_nonpositive.
Qed.

(** C2, as stated, fails at size 1: the call raises, so it returns no list
    of [1^3] samples. *)
Lemma generate_lut_size_one_returns_nothing :
  ~ exists samples,
      generate_lut 1 = Ok samples /\ Z.of_nat (length samples) = (1 ^ 3)%Z.
Proof.
  intros (samples & H & _). rewrite generate_lut_one in H. discriminate.
Qed.

(** C2, amended.  For every size from 0 upwards other than 1,
    [generate_lut size] returns exactly [size^3] samples, enumerated with
    the phase (blue) index outermost and the magnitude (red) index
    innermost: the sample at index [i] is [map_to_preview_rgb] at
    [r / (size - 1)], [g / (size - 1)], [b / (size - 1)] with [r = i % size],
    [g = (i // size) % size] and [b = i // size^2]. *)
Theorem generate_lut_enumerates (size : Z) :
  (0 <= size)%Z -> size <> 1%Z ->
  exists samples,
    generate_lut size = Ok samples
    /\ Z.of_nat (length samples) = (size ^ 3)%Z
    /\ forall i, (0 <= i < size ^ 3)%Z ->
       exists c,
         nth_error samples (Z.to_nat i) = Some c
         /\ map_to_preview_rgb
              (IZR (i mod size) / IZR (size - 1))
              (IZR ((i / size) mod size) / IZR (size - 1))
              (IZR (i / size ^ 2) / IZR (size - 1))
            = Ok c.
Proof.
  intros Hsize Hone. exists (lut_grid size). split; [|split].
  - apply generate_lut_grid. lia.
  - rewrite lut_grid_length, !Nat2Z.inj_mul, Z2Nat.id by lia. ring.
  - intros i Hi.
    destruct (grid_index_split size i Hi) as (Hr & Hg & Hb & Hsplit).
    exists (grid_sample size (i mod size) ((i / size) mod size) (i / size ^ 2)).
    split; [|apply map_to_preview_rgb_grid_sample; assumption].
    rewrite Hsplit at 1.
    set (r := (i mod size)%Z) in *. set (g := ((i / size) mod size)%Z) in *.
    set (b := (i / size ^ 2)%Z) in *.
    replace (Z.to_nat (b * (size * size) + (g * size + r)))
      with (Z.to_nat b * (Z.to_nat size * Z.to_nat size)
            + (Z.to_nat g * Z.to_nat size + Z.to_nat r))%nat.
    + rewrite lut_grid_nth_error by lia.
      now rewrite !Z2Nat.id by lia.
    + apply Nat2Z.inj.
      rewrite !Nat2Z.inj_add, !Nat2Z.inj_mul, !Z2Nat.id; nia.
Qed.

Lemma generate_lut_enumerates_witness :
  exists samples,
    generate_lut 2 = Ok samples
    /\ Z.of_nat (length samples) = (2 ^ 3)%Z
    /\ exists c,
         nth_error samples (Z.to_nat 5) = Some c
         /\ map_to_preview_rgb
              (IZR (5 mod 2) / IZR (2 - 1))
              (IZR ((5 / 2) mod 2) / IZR (2 - 1))
              (IZR (5 / 2 ^ 2) / IZR (2 - 1))
            = Ok c.
Proof.
  destruct (generate_lut_enumerates 2 ltac:(lia) ltac:(lia))
    as (samples & Hgen & Hlen & Hnth).
  exists samples. split; [exact Hgen|]. split; [exact Hlen|].
  apply (Hnth 5%Z). cbn. lia.
Defined.

(** C9, as stated, fails: a negative size is neither 0 nor at least 2, and
    the call returns the empty list all the same. *)
Lemma generate_lut_total_at_negative_size :
  generate_lut (-1) = Ok [] /\ ~ ((-1 = 0)%Z \/ (2 <= -1)%Z).
Proof. split; [reflexivity|lia]. Qed.

(** C9, amended.  [generate_lut] fails at size 1 and nowhere else: at every
    size up to 0 (so at 0) the loops do not run and the result is the
    empty list; at size 1 the first grid coordinate divides by [size - 1 = 0]
    and raises with no sample produced yet; from size 2 upwards the call
    returns. *)
Theorem generate_lut_fails_only_at_one (size : Z) :
  ((size <= 0)%Z -> generate_lut size = Ok [])
  /\ generate_lut 0 = Ok []
  /\ generate_lut_loops 1 [] = (Raise ZeroDivisionError, [])
  /\ generate_lut 1 = Raise ZeroDivisionError
  /\ ((2 <= size)%Z -> exists samples, generate_lut size = Ok samples)
  /\ ((exists samples, generate_lut size = Ok samples) <-> size <> 1%Z).
Proof.
  split; [apply generate_lut_nonpositive|].
  split; [reflexivity|]. split; [reflexivity|]. split; [reflexivity|].
  split.
  - intros Hsize. exists (lut_grid size). apply generate_lut_grid. lia.
  - split.
    + intros (samples & H) ->. rewrite generate_lut_one in H. discriminate.
    + intros Hone. exists (lut_grid size). apply generate_lut_grid. lia.
Qed.

Lemma generate_lut_fails_only_at_one_witness :
  generate_lut (-3) = Ok [] /\ exists samples, generate_lut 33 = Ok samples.
Proof.
  split.
  - apply (proj1 (generate_lut_fails_only_at_one (-3))). lia.
  - apply (proj1 (proj2 (proj2 (proj2 (proj2
             (generate_lut_fails_only_at_one 33)))))). lia.
Defined.

(** ** The file system *)

Lemma path_eqb_refl (p : path) : path_eqb p p = true.
Proof. unfold path_eqb. destruct (list_eq_dec string_dec p p); congruence. Qed.

Lemma path_eqb_neq (p q : path) : p <> q -> path_eqb p q = false.
Proof. unfold path_eqb. destruct (list_eq_dec string_dec p q); congruence. Qed.

Lemma fs_set_same (fs : FS) (p : path) (n : node) : fs_set fs p n p = Some n.
Proof. unfold fs_set. now rewrite path_eqb_refl. Qed.

Lemma fs_set_other (fs : FS) (p q : path) (n : node) :
  q <> p -> fs_set fs p n q = fs q.
Proof. intros H. unfold fs_set. rewrite path_eqb_neq; congruence. Qed.

Lemma fs_get_nonempty (fs : FS) (p : path) : p <> [] -> fs_get fs p = fs p.
Proof. destruct p; [congruence|reflexivity]. Qed.

Lemma string_app_assoc (a b c : string) : ((a ++ b) ++ c = a ++ (b ++ c))%string.
Proof. induction a as [|ch a IH]; cbn; [reflexivity|now rewrite IH]. Qed.

Lemma string_app_nil_r (a : string) : (a ++ EmptyString)%string = a.
Proof. induction a as [|ch a IH]; cbn; [reflexivity|now rewrite IH]. Qed.

Lemma cat_lines_app (xs ys : list string) :
  cat_lines (xs ++ ys) = (cat_lines xs ++ cat_lines ys)%string.
Proof.
  induction xs as [|x xs IH]; cbn; [reflexivity|].
  fold (cat_lines (xs ++ ys)). fold (cat_lines xs).
  now rewrite IH, string_app_assoc.
Qed.

Lemma write_appends (p : path) (s content : string) (fs : FS) :
  fs p = Some (File content) ->
  write p s fs = (Ok tt, fs_set fs p (File (content ++ s))).
Proof. intros H. unfold write. now rewrite H. Qed.

Section ForInWrite.

Context {A : Type}.
Variable p : path.
Variable line : A -> string.
Variable body : A -> Py FS unit.
Hypothesis body_writes : forall x, body x = write p (line x).

Lemma for_in_writes (xs : list A) (fs : FS) (content : string) :
  fs p = Some (File content) ->
  exists fs',
    for_in xs body fs = (Ok tt, fs')
    /\ fs' p = Some (File (content ++ cat_lines (map line xs)))
    /\ forall q, q <> p -> fs' q = fs q.
Proof.
  revert fs content.
  induction xs as [|x xs IH]; intros fs content Hp; cbn [for_in map].
  - exists fs. cbn. now rewrite string_app_nil_r.
  - unfold bind. rewrite body_writes, (write_appends _ _ _ _ Hp).
    destruct (IH (fs_set fs p (File (content ++ line x))) (content ++ line x)%string)
      as (fs' & Hrun & Hfile & Hframe); [apply fs_set_same|].
    exists fs'. split; [exact Hrun|]. split.
    + rewrite Hfile. cbn. fold (cat_lines (map line xs)).
      now rewrite string_app_assoc.
    + intros q Hq. rewrite Hframe by assumption. now apply fs_set_other.
Qed.

End ForInWrite.

(** What [write_cube_file] does once [generate_lut] has returned. *)
Lemma write_cube_file_spec (p : path) (size : Z) (samples : list rgb) (fs : FS) :
  generate_lut size = Ok samples ->
  fs_get fs (parent p) = Some Dir ->
  fs_get fs p <> Some Dir ->
  exists fs',
    write_cube_file p size fs = (Ok tt, fs')
    /\ fs' p = Some (File (cube_text size samples))
    /\ forall q, q <> p -> fs' q = fs q.
Proof.
  intros Hgen Hparent Hp.
  unfold write_cube_file. unfold bind at 1, lift. rewrite Hgen.
  unfold bind at 1, open_w. rewrite Hparent.
  set (fs0 := fs_set fs p (File EmptyString)).
  assert (Hopen :
    match fs_get fs p with
    | Some Dir => (Raise IsADirectoryError, fs)
    | _ => (Ok tt, fs0)
    end = (Ok tt, fs0)).
  { destruct (fs_get fs p) as [[|c]|]; congruence. }
  rewrite Hopen. clear Hopen.
  assert (H0 : fs0 p = Some (File EmptyString)) by apply fs_set_same.
  unfold bind at 1. rewrite (write_appends _ _ _ _ H0).
  set (fs1 := fs_set fs0 p _).
  assert (H1 : fs1 p = Some (File (EmptyString ++ TITLE_LINE))) by apply fs_set_same.
  unfold bind at 1. rewrite (write_appends _ _ _ _ H1).
  set (fs2 := fs_set fs1 p _).
  assert (H2 : fs2 p = Some (File ((EmptyString ++ TITLE_LINE)
                 ++ ("LUT_3D_SIZE " ++ str_int size ++ nl))))
    by apply fs_set_same.
  unfold bind at 1. rewrite (write_appends _ _ _ _ H2).
  set (fs3 := fs_set fs2 p _).
  assert (H3 : fs3 p = Some (File (((EmptyString ++ TITLE_LINE)
                 ++ ("LUT_3D_SIZE " ++ str_int size ++ nl))
                 ++ ("DOMAIN_MIN 0.0 0.0 0.0" ++ nl))))
    by apply fs_set_same.
  unfold bind at 1. rewrite (write_appends _ _ _ _ H3).
  set (fs4 := fs_set fs3 p _).
  assert (H4 : fs4 p = Some (File (cat_lines (header_lines size)))).
  { unfold fs4. rewrite fs_set_same. do 2 f_equal.
    cbn [cat_lines header_lines fold_right].
    rewrite !string_app_assoc, string_app_nil_r. reflexivity. }
  destruct (for_in_writes p data_line
              (fun '(r, g, b) =>
                 write p (format_6f r ++ " " ++ format_6f g ++ " "
                          ++ format_6f b ++ nl))
              ltac:(now intros [[r g] b]) samples fs4 _ H4)
    as (fs' & Hrun & Hfile & Hframe).
  exists fs'. split; [exact Hrun|]. split.
  - rewrite Hfile. unfold cube_text. now rewrite cat_lines_app.
  - intros q Hq. rewrite Hframe by assumption.
    unfold fs4, fs3, fs2, fs1, fs0. now rewrite !fs_set_other by assumption.
Qed.

(** The header of a size-3 cube, spelled out. *)
Example header_lines_3 :
  header_lines 3 =
  [ ("TITLE " ++ dquote ++ "ReSyne Display (Magnitude/LogFreq/PhaseCos)"
     ++ dquote ++ nl)%string;
    ("LUT_3D_SIZE 3" ++ nl)%string;
    ("DOMAIN_MIN 0.0 0.0 0.0" ++ nl)%string;
    ("DOMAIN_MAX 1.0 1.0 1.0" ++ nl)%string ].
Proof. reflexivity. Qed.

(** C3, as stated, fails at size 1: [generate_lut] raises before the file
    is opened, and nothing is written. *)
Lemma write_cube_file_size_one_writes_nothing :
  write_cube_file ["lut.cube"%string] 1 empty_fs
  = (Raise ZeroDivisionError, empty_fs)
  /\ ~ exists fs' content,
         write_cube_file ["lut.cube"%string] 1 empty_fs = (Ok tt, fs')
         /\ fs' ["lut.cube"%string] = Some (File content).
Proof.
  assert (H : write_cube_file ["lut.cube"%string] 1 empty_fs
              = (Raise ZeroDivisionError, empty_fs)) by reflexivity.
  split; [exact H|].
  intros (fs' & content & Hrun & _). rewrite H in Hrun. discriminate.
Qed.

(** C3, amended.  For every size from 0 upwards other than 1, in a file
    system where the parent of the target is a directory and the target is
    not, [write_cube_file] returns and leaves in the target exactly the
    four header lines (title, [LUT_3D_SIZE <size>], [DOMAIN_MIN 0.0 0.0 0.0],
    [DOMAIN_MAX 1.0 1.0 1.0]) followed by [size^3] data lines, one per
    sample of [generate_lut size] in generation order, each the three
    channels in [.6f] format separated by spaces; no other path changes. *)
Theorem write_cube_file_content (p : path) (size : Z) (fs : FS) :
  (0 <= size)%Z -> size <> 1%Z ->
  fs_get fs (parent p) = Some Dir ->
  fs_get fs p <> Some Dir ->
  exists samples fs',
    generate_lut size = Ok samples
    /\ write_cube_file p size fs = (Ok tt, fs')
    /\ fs' p = Some (File (cat_lines (header_lines size ++ map data_line samples)))
    /\ header_lines size =
       [ TITLE_LINE;
         ("LUT_3D_SIZE " ++ str_int size ++ nl)%string;
         ("DOMAIN_MIN 0.0 0.0 0.0" ++ nl)%string;
         ("DOMAIN_MAX 1.0 1.0 1.0" ++ nl)%string ]
    /\ Z.of_nat (length (map data_line samples)) = (size ^ 3)%Z
    /\ (forall r g b,
          data_line (r, g, b)
          = (format_6f r ++ " " ++ format_6f g ++ " " ++ format_6f b ++ nl)%string)
    /\ forall q, q <> p -> fs' q = fs q.
Proof.
  intros Hsize Hone Hparent Hp.
  exists (lut_grid size).
  assert (Hgen : generate_lut size = Ok (lut_grid size))
    by (apply generate_lut_grid; lia).
  destruct (write_cube_file_spec p size _ fs Hgen Hparent Hp)
    as (fs' & Hrun & Hfile & Hframe).
  exists fs'. repeat split; try assumption.
  rewrite length_map, lut_grid_length, !Nat2Z.inj_mul, Z2Nat.id by lia. ring.
Qed.

Lemma write_cube_file_content_witness :
  exists samples fs',
    generate_lut 3 = Ok samples
    /\ write_cube_file ["lut.cube"%string] 3 empty_fs = (Ok tt, fs')
    /\ fs' ["lut.cube"%string]
       = Some (File (cat_lines (header_lines 3 ++ map data_line samples)))
    /\ Z.of_nat (length (map data_line samples)) = 27%Z.
Proof.
  destruct (write_cube_file_content ["lut.cube"%string] 3 empty_fs
              ltac:(lia) ltac:(lia) eq_refl ltac:(discriminate))
    as (samples & fs' & Hgen & Hrun & Hfile & _ & Hlen & _).
  exists samples, fs'. repeat split; assumption.
Defined.

(** ** Creating the directories *)

Lemma on_the_way_nonempty (base todo d : path) :
  on_the_way base todo d -> d <> [].
Proof.
  intros (pre & suf & Hpre & _ & ->) H.
  apply app_eq_nil in H. tauto.
Qed.

Lemma on_the_way_longer (base todo d : path) :
  on_the_way base todo d -> (length base < length d)%nat.
Proof.
  intros (pre & suf & Hpre & _ & ->). rewrite length_app.
  destruct pre; [congruence|cbn; lia].
Qed.

Lemma on_the_way_first (base : path) (c : string) (rest : path) :
  on_the_way base (c :: rest) (base // c).
Proof. exists [c], rest. repeat split. discriminate. Qed.

Lemma on_the_way_next (base : path) (c : string) (rest d : path) :
  on_the_way (base // c) rest d -> on_the_way base (c :: rest) d.
Proof.
  intros (pre & suf & Hpre & -> & ->).
  exists (c :: pre), suf. repeat split; [discriminate|].
  unfold joinpath. now rewrite <- app_assoc.
Qed.

Lemma on_the_way_inv (base : path) (c : string) (rest d : path) :
  on_the_way base (c :: rest) d ->
  d = base // c \/ on_the_way (base // c) rest d.
Proof.
  intros (pre & suf & Hpre & Htodo & ->).
  destruct pre as [|c' pre]; [congruence|].
  injection Htodo as -> ->.
  destruct pre as [|c'' pre]; [now left|right].
  exists (c'' :: pre), suf. repeat split; [discriminate|].
  unfold joinpath. now rewrite <- app_assoc.
Qed.

Lemma on_the_way_whole (base todo : path) :
  todo <> [] -> on_the_way base todo (base ++ todo).
Proof. intros H. exists todo, []. now rewrite app_nil_r. Qed.

Lemma mkdir_from_spec (todo : path) :
  forall (base : path) (fs : FS),
    (forall d content, on_the_way base todo d -> fs d <> Some (File content)) ->
    exists fs',
      mkdir_from base todo fs = (Ok tt, fs')
      /\ (forall d, on_the_way base todo d -> fs' d = Some Dir)
      /\ (forall q, ~ on_the_way base todo q -> fs' q = fs q).
Proof.
  induction todo as [|c rest IH]; intros base fs Hfree; cbn [mkdir_from].
  - exists fs. split; [reflexivity|]. split; [|reflexivity].
    intros d (pre & suf & Hpre & Htodo & _).
    symmetry in Htodo. apply app_eq_nil in Htodo. tauto.
  - assert (Hc : base // c <> []).
    { apply (on_the_way_nonempty base (c :: rest)), on_the_way_first. }
    rewrite (fs_get_nonempty fs _ Hc).
    assert (Hstep : forall fs1,
      (forall q, q <> base // c -> fs1 q = fs q) ->
      fs1 (base // c) = Some Dir ->
      exists fs',
        mkdir_from (base // c) rest fs1 = (Ok tt, fs')
        /\ (forall d, on_the_way base (c :: rest) d -> fs' d = Some Dir)
        /\ (forall q, ~ on_the_way base (c :: rest) q -> fs' q = fs q)).
    { intros fs1 Hsame Hdir.
      destruct (IH (base // c) fs1) as (fs' & Hrun & Hdirs & Hframe).
      - intros d content Hd.
        destruct (list_eq_dec string_dec d (base // c)) as [->|Hne].
        + rewrite Hdir. discriminate.
        + rewrite Hsame by assumption.
          apply Hfree. now apply on_the_way_next.
      - exists fs'. split; [exact Hrun|]. split.
        + intros d Hd. destruct (on_the_way_inv _ _ _ _ Hd) as [->|Hd'].
          * rewrite Hframe; [assumption|].
            intros Hon. apply on_the_way_longer in Hon. lia.
          * now apply Hdirs.
        + intros q Hq. rewrite Hframe.
          * apply Hsame. intros ->. apply Hq, on_the_way_first.
          * intros Hq'. apply Hq. now apply on_the_way_next. }
    destruct (fs (base // c)) as [[|content]|] eqn:Hfs.
    + apply Hstep; [reflexivity|assumption].
    + exfalso. apply (Hfree (base // c) content); [apply on_the_way_first|assumption].
    + apply Hstep; [intros q Hq; now apply fs_set_other|apply fs_set_same].
Qed.

(** ** The entry point *)

Lemma parent_joinpath (p : path) (c : string) : parent (p // c) = p.
Proof. apply removelast_last. Qed.

Lemma joinpath_nonempty (p : path) (c : string) : p // c <> [].
Proof. unfold joinpath. intros H. apply app_eq_nil in H. now destruct H. Qed.

Lemma not_on_the_way_child (todo : path) (c : string) :
  ~ on_the_way [] todo (todo // c).
Proof.
  intros (pre & suf & _ & Htodo & Hd). cbn in Hd. subst pre.
  apply (f_equal (@length string)) in Htodo.
  unfold joinpath in Htodo. rewrite !length_app in Htodo. cbn in Htodo. lia.
Qed.

(** What [main] does, for a script that sits two levels below [anchor]. *)
Lemma main_spec (anchor : path) (d f : string) (fs : FS) (samples : list rgb) :
  let luts := anchor // "assets" // "luts" in
  let output := luts // "ReSyne_Display_v1.cube" in
  generate_lut LUT_SIZE = Ok samples ->
  (forall q content, on_the_way [] luts q -> fs q <> Some (File content)) ->
  fs output <> Some Dir ->
  exists fs',
    main (anchor // d // f) fs = (Ok tt, fs')
    /\ fs' output = Some (File (cube_text LUT_SIZE samples))
    /\ (forall q, on_the_way [] luts q -> fs' q = Some Dir)
    /\ (forall q, q <> output -> ~ on_the_way [] luts q -> fs' q = fs q).
Proof.
  intros luts output Hgen Hfree Hout.
  unfold main. rewrite !parent_joinpath. fold luts. fold output.
  destruct (mkdir_from_spec luts [] fs Hfree) as (fs1 & Hmk & Hdirs & Hframe1).
  unfold bind at 1, mkdir_parents_exist_ok. rewrite Hmk.
  assert (Hluts : luts <> []) by apply joinpath_nonempty.
  assert (Hoff : ~ on_the_way [] luts output) by apply not_on_the_way_child.
  destruct (write_cube_file_spec output LUT_SIZE samples fs1 Hgen)
    as (fs' & Hrun & Hfile & Hframe2).
  - unfold output. rewrite parent_joinpath, fs_get_nonempty by assumption.
    apply Hdirs. now apply (on_the_way_whole []).
  - rewrite fs_get_nonempty by apply joinpath_nonempty.
    now rewrite Hframe1.
  - exists fs'. split; [exact Hrun|]. split; [exact Hfile|]. split.
    + intros q Hq. rewrite Hframe2; [now apply Hdirs|].
      intros ->. contradiction.
    + intros q Hq Hq'. rewrite Hframe2 by assumption. now apply Hframe1.
Qed.

Lemma generate_lut_default : generate_lut LUT_SIZE = Ok (lut_grid LUT_SIZE).
Proof. apply generate_lut_grid. unfold LUT_SIZE. lia. Qed.

(** C8, as stated, fails.  The script is
    [src/utilities/generate_resyne_display_lut.py]; run from a checkout at
    [/repo] with nothing else on disk, [main] leaves
    [/repo/assets/luts/ReSyne_Display_v1.cube] and its directory absent and
    writes [/repo/src/assets/luts/ReSyne_Display_v1.cube] instead. *)
Lemma main_does_not_write_under_project_root :
  exists fs',
    main ["repo"; "src"; "utilities"; "generate_resyne_display_lut.py"]%string
      empty_fs = (Ok tt, fs')
    /\ fs' ["repo"; "assets"; "luts"; "ReSyne_Display_v1.cube"]%string = None
    /\ fs' ["repo"; "assets"; "luts"]%string = None
    /\ exists content,
         fs' ["repo"; "src"; "assets"; "luts"; "ReSyne_Display_v1.cube"]%string
         = Some (File content).
Proof.
  destruct (main_spec ["repo"; "src"]%string "utilities"
              "generate_resyne_display_lut.py" empty_fs _ generate_lut_default)
    as (fs' & Hrun & Hfile & _ & Hframe); try discriminate.
  exists fs'. split; [exact Hrun|].
  assert (Hoff : forall q suf,
    (["repo"; "src"; "assets"; "luts"]%string = q ++ suf) ->
    hd_error (tl q) <> Some "assets"%string).
  { intros [|a [|b q]] suf H; cbn; try discriminate.
    cbn in H. injection H as _ <- _. discriminate. }
  split; [|split].
  - rewrite Hframe; [reflexivity|discriminate|].
    intros (pre & suf & _ & Htodo & Hd). cbn in Hd. subst pre.
    now apply (Hoff _ _ Htodo).
  - rewrite Hframe; [reflexivity|discriminate|].
    intros (pre & suf & _ & Htodo & Hd). cbn in Hd. subst pre.
    now apply (Hoff _ _ Htodo).
  - eexists. exact Hfile.
Qed.

(** C8, amended.  [main] writes the LUT of the default size to
    [<anchor>/assets/luts/ReSyne_Display_v1.cube], where [<anchor>] is the
    directory two levels above the script file (for the script at
    [src/utilities/] that is [<project_root>/src], not the project root);
    it first creates the directories on the way that are absent, and
    changes nothing else.  This holds when no regular file sits where a
    directory is needed and the target is not a directory. *)
Theorem main_writes_two_levels_above_script
    (anchor : path) (d f : string) (fs : FS) :
  let luts := anchor // "assets" // "luts" in
  let output := luts // "ReSyne_Display_v1.cube" in
  (forall q content, on_the_way [] luts q -> fs q <> Some (File content)) ->
  fs output <> Some Dir ->
  exists samples fs',
    generate_lut LUT_SIZE = Ok samples
    /\ main (anchor // d // f) fs = (Ok tt, fs')
    /\ fs' output = Some (File (cube_text LUT_SIZE samples))
    /\ (forall q, on_the_way [] luts q -> fs' q = Some Dir)
    /\ (forall q, q <> output -> ~ on_the_way [] luts q -> fs' q = fs q).
Proof.
  intros luts output Hfree Hout.
  exists (lut_grid LUT_SIZE).
  destruct (main_spec anchor d f fs _ generate_lut_default Hfree Hout)
    as (fs' & H).
  exists fs'. split; [apply generate_lut_default|exact H].
Qed.

Lemma main_writes_two_levels_above_script_witness :
  exists samples fs',
    generate_lut LUT_SIZE = Ok samples
    /\ main ["repo"; "src"; "utilities"; "generate_resyne_display_lut.py"]%string
         empty_fs = (Ok tt, fs')
    /\ fs' ["repo"; "src"; "assets"; "luts"; "ReSyne_Display_v1.cube"]%string
       = Some (File (cube_text LUT_SIZE samples))
    /\ fs' ["repo"; "src"; "assets"; "luts"]%string = Some Dir.
Proof.
  destruct (main_writes_two_levels_above_script ["repo"; "src"]%string
              "utilities" "generate_resyne_display_lut.py" empty_fs)
    as (samples & fs' & Hgen & Hrun & Hfile & Hdirs & _);
    try discriminate.
  exists samples, fs'. repeat split; try assumption.
  apply Hdirs. now apply (on_the_way_whole []).
Defined.

(** ** The number format on examples *)

Lemma round_half_even_near (x : R) (z : Z) :
  IZR z - 1 / 2 < x < IZR z + 1 / 2 -> round_half_even x = z.
Proof.
  intros Hx. unfold round_half_even.
  pose proof (Zfloor_bound x) as Hfl.
  destruct (Rlt_dec (x - IZR (Zfloor x)) (1 / 2)) as [Hlo|Hhi].
  - apply Zfloor_eq. split; [|lra].
    destruct (Z_le_gt_dec z (Zfloor x)) as [Hle|Hgt]; [|exfalso].
    + destruct (Z.eq_dec z (Zfloor x)) as [->|Hne]; [lra|].
      assert (Hz : (z + 1 <= Zfloor x)%Z) by lia.
      apply IZR_le in Hz. rewrite plus_IZR in Hz. lra.
    + assert (Hz : (Zfloor x + 1 <= z)%Z) by lia.
      apply IZR_le in Hz. rewrite plus_IZR in Hz. lra.
  - assert (Hd : 1 / 2 < x - IZR (Zfloor x)).
    { destruct (Rlt_dec (1 / 2) (x - IZR (Zfloor x))) as [H|H]; [exact H|].
      exfalso.
      assert (Heq : x = IZR (Zfloor x) + 1 / 2) by lra.
      destruct (Z_lt_le_dec (Zfloor x) z) as [Hlt|Hge].
      - assert (Hz : (Zfloor x + 1 <= z)%Z) by lia.
        apply IZR_le in Hz. rewrite plus_IZR in Hz. lra.
      - apply IZR_le in Hge. lra. }
    destruct (Rlt_dec (1 / 2) (x - IZR (Zfloor x))); [|contradiction].
    destruct (Z.eq_dec z (Zfloor x + 1)) as [->|Hne]; [reflexivity|exfalso].
    destruct (Z_lt_le_dec z (Zfloor x + 1)) as [Hlt|Hge].
    + assert (Hz : (z <= Zfloor x)%Z) by lia. apply IZR_le in Hz. lra.
    + assert (Hz : (Zfloor x + 2 <= z)%Z) by lia.
      apply IZR_le in Hz. rewrite plus_IZR in Hz. lra.
Qed.

Lemma format_6f_nonnegative (x : R) (z : Z) :
  0 <= x ->
  IZR z - 1 / 2 < x * 1000000 < IZR z + 1 / 2 ->
  format_6f x
  = (str_int (z / 1000000) ++ "." ++ zdigits 6 (z mod 1000000))%string.
Proof.
  intros Hx Hz. unfold format_6f.
  rewrite Rabs_pos_eq, (round_half_even_near _ z) by assumption.
  destruct (Rlt_dec x 0); [lra|reflexivity].
Qed.

Example data_line_orange :
  data_line (1, 13 / 30, 0.15)
  = ("1.000000 0.433333 0.150000" ++ nl)%string.
Proof.
  unfold data_line.
  rewrite (format_6f_nonnegative 1 1000000),
    (format_6f_nonnegative (13 / 30) 433333),
    (format_6f_nonnegative 0.15 150000) by lra.
  reflexivity.
Qed.

(** * Further properties of the mapper *)

(** ** Hue *)

Lemma hue_degrees_on_unit (f : R) :
  0 <= f <= 1 -> 20 <= Preview.hue_degrees f <= 300.
Proof. intros Hf. unfold Preview.hue_degrees. lra. Qed.

Lemma fmod_small (x y : R) : 0 <= x < y -> PyFloat.fmod x y = x.
Proof.
  intros Hx. unfold PyFloat.fmod.
  rewrite (Zfloor_eq 0); [lra|].
  assert (Hy : 0 < y) by lra.
  split.
  - apply Rmult_le_pos; [lra|]. left. now apply Rinv_0_lt_compat.
  - apply (Rmult_lt_reg_r y); [assumption|].
    unfold Rdiv. rewrite Rmult_assoc, Rinv_l by lra. lra.
Qed.

(** X1.  On frequencies in [0, 1] the modulo does nothing: the hue is
    [(300 - 280 f) / 360], it runs from 5/6 at frequency 0 down to 1/18 at
    frequency 1, and it is strictly decreasing. *)
Theorem hue_on_unit_interval (f g : R) :
  0 <= f -> f < g -> g <= 1 ->
  Preview.hue f = (300 - 280 * f) / 360
  /\ 1 / 18 <= Preview.hue f <= 5 / 6
  /\ Preview.hue 0 = 5 / 6
  /\ Preview.hue 1 = 1 / 18
  /\ Preview.hue g < Preview.hue f.
Proof.
  intros H0 Hfg H1.
  assert (Hhue : forall x, 0 <= x <= 1 -> Preview.hue x = (300 - 280 * x) / 360).
  { intros x Hx. unfold Preview.hue.
    rewrite fmod_small by (pose proof (hue_degrees_on_unit x Hx); lra).
    unfold Preview.hue_degrees. lra. }
  rewrite !Hhue by lra. repeat split; lra.
Qed.

Lemma hue_on_unit_interval_witness : Preview.hue 0.75 < Preview.hue 0.25.
Proof.
  apply (hue_on_unit_interval 0.25 0.75); lra.
Defined.

(** ** Ranges and saturation of the denormalisers *)

Lemma pow10_minus_6 : PyFloat.pow 10 (-6) = / 1000000.
Proof.
  unfold PyFloat.pow. change (IZR (-6)) with (Ropp (IZR 6)).
  rewrite Rpower_Ropp. f_equal.
  replace 6 with (INR 6) by (cbn; lra).
  rewrite Rpower_pow by lra. lra.
Qed.

Lemma denormalise_magnitude_at (v : R) :
  0 <= v <= 1 -> denormalise_magnitude v = PyFloat.pow 10 (7 * v - 6).
Proof.
  intros Hv. unfold denormalise_magnitude, DB_RANGE, DB_MAX, DB_MIN.
  rewrite clamp01_id by assumption. f_equal. lra.
Qed.

(** X3.  [denormalise_magnitude] returns an amplitude between [10^-6] and
    10 for every input, saturates at these two values below 0 and above 1,
    is strictly increasing on [0, 1], and multiplies the amplitude by ten
    for every seventh of the unit interval (20 dB). *)
Theorem denormalise_magnitude_scale (v x y : R) :
  0 <= x -> x < y -> y <= 1 ->
  / 1000000 <= denormalise_magnitude v <= 10
  /\ (v <= 0 -> denormalise_magnitude v = / 1000000)
  /\ (1 <= v -> denormalise_magnitude v = 10)
  /\ denormalise_magnitude x < denormalise_magnitude y
  /\ (x + 1 / 7 <= 1 ->
      denormalise_magnitude (x + 1 / 7) = 10 * denormalise_magnitude x).
Proof.
  intros H0 Hxy H1.
  assert (Hlow : denormalise_magnitude 0 = / 1000000).
  { rewrite denormalise_magnitude_at by lra.
    replace (7 * 0 - 6) with (-6) by lra. apply pow10_minus_6. }
  assert (Hclamp : forall u, denormalise_magnitude u = denormalise_magnitude (clamp01 u)).
  { intros u. now rewrite denormalise_magnitude_clamp. }
  split; [|split; [|split; [|split]]].
  - split; [|apply denormalise_magnitude_range].
    rewrite <- Hlow, (Hclamp v), !denormalise_magnitude_at
      by (try apply clamp01_bounds; lra).
    apply pow_le; [lra|]. pose proof (clamp01_bounds v). lra.
  - intros Hv. now rewrite (Hclamp v), clamp01_below.
  - intros Hv. rewrite (Hclamp v), clamp01_above by assumption.
    apply denormalise_magnitude_full_scale.
  - rewrite !denormalise_magnitude_at by lra. apply pow_lt; lra.
  - intros Hstep. rewrite !denormalise_magnitude_at by lra.
    replace (7 * (x + 1 / 7) - 6) with (1 + (7 * x - 6)) by lra.
    unfold PyFloat.pow. rewrite Rpower_plus, Rpower_1 by lra. reflexivity.
Qed.

Lemma denormalise_magnitude_scale_witness :
  denormalise_magnitude 0.5 < denormalise_magnitude 0.75
  /\ denormalise_magnitude (-2) = / 1000000
  /\ denormalise_magnitude 3 = 10
  /\ denormalise_magnitude (0.5 + 1 / 7) = 10 * denormalise_magnitude 0.5.
Proof.
  pose proof (denormalise_magnitude_scale (-2) 0.5 0.75
                ltac:(lra) ltac:(lra) ltac:(lra)) as (_ & Hlow & _ & Hlt & Hdec).
  pose proof (denormalise_magnitude_scale 3 0.5 0.75
                ltac:(lra) ltac:(lra) ltac:(lra)) as (_ & _ & Hhigh & _).
  split; [exact Hlt|]. split; [apply Hlow; lra|].
  split; [apply Hhigh; lra|apply Hdec; lra].
Defined.

(** X4.  [denormalise_frequency] returns a frequency between 20 and 20000
    for every input and saturates at these two values below 0 and above 1. *)
Theorem denormalise_frequency_range (v : R) :
  20 <= denormalise_frequency v <= 20000
  /\ (v <= 0 -> denormalise_frequency v = 20)
  /\ (1 <= v -> denormalise_frequency v = 20000).
Proof.
  assert (H0 : forall u, clamp01 u = 0 -> denormalise_frequency u = 20).
  { intros u Hu. unfold denormalise_frequency. rewrite Hu.
    replace (LOG_FREQ_MIN + 0 * LOG_FREQ_RANGE) with (PyFloat.log2 20)
      by (unfold LOG_FREQ_MIN, MIN_FREQ; lra).
    apply pow2_log2; lra. }
  assert (H1 : forall u, clamp01 u = 1 -> denormalise_frequency u = 20000).
  { intros u Hu. unfold denormalise_frequency. rewrite Hu.
    replace (LOG_FREQ_MIN + 1 * LOG_FREQ_RANGE) with (PyFloat.log2 20000)
      by (unfold LOG_FREQ_RANGE, LOG_FREQ_MIN, MAX_FREQ, MIN_FREQ; lra).
    apply pow2_log2; lra. }
  split; [|split].
  - pose proof (clamp01_bounds v) as Hv. pose proof LOG_FREQ_RANGE_pos as Hr.
    assert (Hlo : denormalise_frequency 0 <= denormalise_frequency v).
    { unfold denormalise_frequency. rewrite (clamp01_id 0) by lra.
      apply pow_le; [lra|nra]. }
    assert (Hhi : denormalise_frequency v <= denormalise_frequency 1).
    { unfold denormalise_frequency. rewrite (clamp01_id 1) by lra.
      apply pow_le; [lra|nra]. }
    rewrite (H0 0) in Hlo by (apply clamp01_id; lra).
    rewrite (H1 1) in Hhi by (apply clamp01_id; lra).
    split; assumption.
  - intros Hv. now apply H0, clamp01_below.
  - intros Hv. now apply H1, clamp01_above.
Qed.

Lemma denormalise_frequency_range_witness :
  denormalise_frequency (-0.5) = 20 /\ denormalise_frequency 1.5 = 20000.
Proof.
  split.
  - apply (proj1 (proj2 (denormalise_frequency_range (-0.5)))). lra.
  - apply (proj2 (proj2 (denormalise_frequency_range 1.5))). lra.
Defined.

(** ** Brightest and darkest channel *)

Lemma hsv_sector (h : R) :
  0 <= h < 1 ->
  (0 <= PyFloat.int (h * 6) < 6)%Z
  /\ 0 <= h * 6 - IZR (PyFloat.int (h * 6)) < 1.
Proof.
  intros Hh. unfold PyFloat.int.
  destruct (Rle_dec 0 (h * 6)) as [_|Hneg]; [|lra].
  pose proof (Zfloor_bound (h * 6)) as Hfl.
  split; [split|lra].
  - apply Zfloor_lub. lra.
  - apply lt_IZR. lra.
Qed.

Lemma hsv_to_rgb_extremes (h s v : R) :
  0 <= h < 1 -> 0 < s <= 1 -> 0 <= v ->
  exists r g b,
    hsv_to_rgb h s v = Some (r, g, b)
    /\ Rmax r (Rmax g b) = v
    /\ Rmin r (Rmin g b) = v * (1 - s)
    /\ v * (1 - s) <= r <= v /\ v * (1 - s) <= g <= v /\ v * (1 - s) <= b <= v.
Proof.
  intros Hh Hs Hv. unfold hsv_to_rgb.
  destruct (Req_dec_T s 0) as [E|_]; [lra|].
  destruct (hsv_sector h Hh) as (Hi & Hf).
  remember (PyFloat.int (h * 6)) as i eqn:Ei. clear Ei.
  remember (h * 6 - IZR i) as f eqn:Ef. clear Ef.
  rewrite Z.mod_small by assumption.
  assert (Hsf : 0 <= s * f <= s) by nra.
  assert (Hvsf : 0 <= v * (s * f) <= v * s).
  { split; [apply Rmult_le_pos; lra|apply Rmult_le_compat_l; lra]. }
  assert (Hvs : 0 <= v * s) by (apply Rmult_le_pos; lra).
  assert (Hq : v * (1 - s) <= v * (1 - s * f) <= v) by lra.
  assert (Ht : v * (1 - s) <= v * (1 - s * (1 - f)) <= v) by lra.
  assert (Hp : v * (1 - s) <= v) by lra.
  remember (v * (1 - s * f)) as q eqn:Eq. clear Eq.
  remember (v * (1 - s * (1 - f))) as t eqn:Et. clear Et.
  remember (v * (1 - s)) as p eqn:Ep. clear Ep.
  assert (Hext : forall a b c : R,
    p <= a <= v -> p <= b <= v -> p <= c <= v ->
    (a = v \/ b = v \/ c = v) -> (a = p \/ b = p \/ c = p) ->
    exists r g b',
      Some (a, b, c) = Some (r, g, b')
      /\ Rmax r (Rmax g b') = v /\ Rmin r (Rmin g b') = p
      /\ p <= r <= v /\ p <= g <= v /\ p <= b' <= v).
  { intros a b c Ha Hb Hc Hmax Hmin. exists a, b, c.
    split; [reflexivity|]. repeat split; try lra.
    - unfold Rmax. destruct (Rle_dec b c); destruct (Rle_dec a _); lra.
    - unfold Rmin. destruct (Rle_dec b c); destruct (Rle_dec a _); lra. }
  destruct (Z.eqb_spec i 0); [apply Hext; auto; lra|].
  destruct (Z.eqb_spec i 1); [apply Hext; auto; lra|].
  destruct (Z.eqb_spec i 2); [apply Hext; auto; lra|].
  destruct (Z.eqb_spec i 3); [apply Hext; auto; lra|].
  destruct (Z.eqb_spec i 4); [apply Hext; auto; lra|].
  destruct (Z.eqb_spec i 5); [apply Hext; auto; lra|].
  lia.
Qed.

Lemma value_positive (m p : R) : 0 < Preview.value m p <= 1.
Proof.
  rewrite value_unclamped. split; [|apply value_arg_range].
  unfold Preview.value_arg.
  apply Rmult_lt_0_compat.
  - apply sqrt_lt_R0. rewrite amplitude_ratio_unclamped.
    apply amplitude_ratio_arg_range.
  - pose proof (phase_weight_range p). lra.
Qed.

(** X5.  For every input triple whose hue does not overflow the final
    clamp changes nothing: the result is the triple that the colour
    conversion returned.  Its largest channel is the value
    [sqrt(amplitude_ratio) * phase_weight] and its smallest is
    [value * (1 - saturation)]; the smallest is positive and below the
    largest, so no sample is black and none is grey. *)
Theorem map_to_preview_rgb_extremes (m f p : R) :
  Rabs ((1 - f) * 280) < PyFloat.OVERFLOW ->
  exists r g b,
    map_to_preview_rgb m f p = Ok (r, g, b)
    /\ hsv_to_rgb (Preview.hue f) (Preview.saturation m) (Preview.value m p)
       = Some (r, g, b)
    /\ Rmax r (Rmax g b) = sqrt (Preview.amplitude_ratio m) * Preview.phase_weight p
    /\ Rmin r (Rmin g b)
       = sqrt (Preview.amplitude_ratio m) * Preview.phase_weight p
         * (1 - Preview.saturation m)
    /\ 0 < Rmin r (Rmin g b) < Rmax r (Rmax g b).
Proof.
  intros Hfine.
  pose proof (value_positive m p) as Hv.
  pose proof (saturation_arg_range m) as Hs.
  rewrite <- saturation_unclamped in Hs.
  destruct (hsv_to_rgb_extremes (Preview.hue f) (Preview.saturation m)
              (Preview.value m p) (hue_wraps f) ltac:(lra) ltac:(lra))
    as (r & g & b & Hrgb & Hmax & Hmin & Hr & Hg & Hb).
  exists r, g, b.
  assert (Hlow : 0 < Preview.value m p * (1 - Preview.saturation m)) by nra.
  split; [|split; [|split; [|split]]].
  - rewrite map_to_preview_rgb_locals, no_overflow, Hrgb by assumption.
    unfold clamp_rgb. now rewrite !clamp01_id by lra.
  - exact Hrgb.
  - rewrite Hmax. apply value_unclamped.
  - rewrite Hmin, value_unclamped. reflexivity.
  - rewrite Hmax, Hmin. nra.
Qed.

Lemma map_to_preview_rgb_extremes_witness :
  exists r g b,
    map_to_preview_rgb 0.5 (-0.125) 0.5 = Ok (r, g, b)
    /\ hsv_to_rgb (Preview.hue (-0.125)) (Preview.saturation 0.5)
         (Preview.value 0.5 0.5)
       = Some (r, g, b)
    /\ Rmax r (Rmax g b)
       = sqrt (Preview.amplitude_ratio 0.5) * Preview.phase_weight 0.5
    /\ Rmin r (Rmin g b)
       = sqrt (Preview.amplitude_ratio 0.5) * Preview.phase_weight 0.5
         * (1 - Preview.saturation 0.5)
    /\ 0 < Rmin r (Rmin g b) < Rmax r (Rmax g b).
Proof.
  apply (map_to_preview_rgb_extremes 0.5 (-0.125) 0.5).
  apply no_overflow_small_frequency.
  unfold Rabs. destruct (Rcase_abs (-0.125)); lra.
Defined.

Lemma amplitude_ratio_mono (m1 m2 : R) :
  m1 <= m2 -> Preview.amplitude_ratio m1 <= Preview.amplitude_ratio m2.
Proof.
  intros Hm. rewrite !amplitude_ratio_unclamped.
  unfold Preview.amplitude_ratio_arg. rewrite MAX_AMPLITUDE_eq.
  assert (denormalise_magnitude m1 <= denormalise_magnitude m2); [|lra].
  unfold denormalise_magnitude, DB_RANGE, DB_MAX, DB_MIN.
  apply pow_le; [lra|]. pose proof (clamp01_mono m1 m2 Hm). lra.
Qed.

(** X6.  Louder and more in phase is never darker or paler: the value
    handed to the colour conversion is non-decreasing in the magnitude and
    in the phase input, and the saturation is non-decreasing in the
    magnitude input. *)
Theorem value_and_saturation_monotone (m1 m2 p1 p2 : R) :
  m1 <= m2 -> p1 <= p2 ->
  Preview.value m1 p1 <= Preview.value m2 p2
  /\ Preview.saturation m1 <= Preview.saturation m2.
Proof.
  intros Hm Hp. pose proof (amplitude_ratio_mono m1 m2 Hm) as Hratio.
  split.
  - rewrite !value_unclamped. unfold Preview.value_arg.
    pose proof (sqrt_amplitude_ratio_range m1).
    pose proof (sqrt_amplitude_ratio_range m2).
    pose proof (phase_weight_range p1). pose proof (phase_weight_range p2).
    assert (Hroot : sqrt (Preview.amplitude_ratio m1)
                    <= sqrt (Preview.amplitude_ratio m2))
      by now apply sqrt_le_1_alt.
    assert (Hweight : Preview.phase_weight p1 <= Preview.phase_weight p2).
    { unfold Preview.phase_weight, decode_cosine_component,
        PHASE_OFFSET, PHASE_SCALE.
      pose proof (clamp01_mono p1 p2 Hp). lra. }
    nra.
  - rewrite !saturation_unclamped. unfold Preview.saturation_arg. lra.
Qed.

Lemma value_and_saturation_monotone_witness :
  Preview.value 0.25 0.5 <= Preview.value 0.75 1
  /\ Preview.saturation 0.25 <= Preview.saturation 0.75.
Proof.
  apply (value_and_saturation_monotone 0.25 0.75 0.5 1); lra.
Defined.

(** * Further properties of the generator *)

Lemma map_to_preview_rgb_result_in_cube (m f p : R) (c : rgb) :
  map_to_preview_rgb m f p = Ok c -> in_unit_cube c.
Proof.
  rewrite map_to_preview_rgb_locals.
  destruct (PyFloat.overflows _); [discriminate|].
  destruct (hsv_to_rgb _ _ _) as [[[r g] b]|]; [|discriminate].
  intros [= <-]. cbn. auto using clamp01_bounds.
Qed.

Lemma grid_sample_in_unit_cube (size r g b : Z) :
  in_unit_cube (grid_sample size r g b).
Proof.
  unfold grid_sample.
  destruct (map_to_preview_rgb _ _ _) as [c|e] eqn:Hc.
  - exact (map_to_preview_rgb_result_in_cube _ _ _ _ Hc).
  - cbn. lra.
Qed.

(** X7.  Whatever the size, every sample of a table that [generate_lut]
    returns has its three channels in [0, 1]. *)
Theorem generate_lut_samples_in_unit_cube (size : Z) (samples : list rgb) :
  generate_lut size = Ok samples -> Forall in_unit_cube samples.
Proof.
  intros Hgen.
  destruct (Z.eq_dec size 1) as [->|Hone].
  - rewrite generate_lut_one in Hgen. discriminate.
  - rewrite generate_lut_grid in Hgen by lia. injection Hgen as <-.
    unfold lut_grid.
    apply Forall_flat_map, Forall_forall. intros b _.
    apply Forall_flat_map, Forall_forall. intros g _.
    apply Forall_flat_map, Forall_forall. intros r _.
    constructor; [apply grid_sample_in_unit_cube|constructor].
Qed.

Lemma generate_lut_samples_in_unit_cube_witness :
  Forall in_unit_cube (lut_grid 3).
Proof.
  apply (generate_lut_samples_in_unit_cube 3).
  apply generate_lut_grid. lia.
Defined.

(** X8.  From size 2 upwards the table starts at the colour of the input
    [(0, 0, 0)] and ends at the colour of the input [(1, 1, 1)]: the grid
    spans the whole unit cube, corners included. *)
Theorem generate_lut_corners (size : Z) :
  (2 <= size)%Z ->
  exists samples first last,
    generate_lut size = Ok samples
    /\ nth_error samples 0 = Some first
    /\ map_to_preview_rgb 0 0 0 = Ok first
    /\ nth_error samples (length samples - 1) = Some last
    /\ map_to_preview_rgb 1 1 1 = Ok last.
Proof.
  intros Hsize.
  set (n := Z.to_nat size).
  assert (Hn : (2 <= n)%nat) by (unfold n; lia).
  exists (lut_grid size), (grid_sample size 0 0 0),
    (grid_sample size (size - 1) (size - 1) (size - 1)).
  split; [apply generate_lut_grid; lia|].
  assert (Hdiv : IZR (size - 1) <> 0).
  { apply not_0_IZR. lia. }
  split; [|split; [|split]].
  - apply (lut_grid_nth_error size 0 0 0); fold n; lia.
  - rewrite <- map_to_preview_rgb_grid_sample by lia.
    replace (IZR 0 / IZR (size - 1)) with 0 by (field; assumption).
    reflexivity.
  - rewrite lut_grid_length. fold n.
    replace (n * (n * n) - 1)%nat
      with ((n - 1) * (n * n) + ((n - 1) * n + (n - 1)))%nat by nia.
    unfold n at 2 4 6.
    rewrite lut_grid_nth_error by (fold n; lia).
    fold n. replace (Z.of_nat (n - 1)) with (size - 1)%Z by (unfold n; lia).
    reflexivity.
  - rewrite <- map_to_preview_rgb_grid_sample by lia.
    replace (IZR (size - 1) / IZR (size - 1)) with 1 by (field; assumption).
    reflexivity.
Qed.

Lemma generate_lut_corners_witness :
  exists samples first last,
    generate_lut LUT_SIZE = Ok samples
    /\ nth_error samples 0 = Some first
    /\ map_to_preview_rgb 0 0 0 = Ok first
    /\ nth_error samples (length samples - 1) = Some last
    /\ map_to_preview_rgb 1 1 1 = Ok last.
Proof.
  apply (generate_lut_corners LUT_SIZE). unfold LUT_SIZE. lia.
Defined.

(** * Further properties of the writer *)

(** X9.  The generator runs before the file is opened: whenever
    [generate_lut] raises, [write_cube_file] raises the same exception and
    the file system is untouched, so a file already at the target keeps
    its text.  This happens at size 1 only, with [ZeroDivisionError]. *)
Theorem write_cube_file_generator_failure
    (p : path) (size : Z) (fs : FS) (e : exn) :
  generate_lut size = Raise e ->
  write_cube_file p size fs = (Raise e, fs)
  /\ size = 1%Z /\ e = ZeroDivisionError.
Proof.
  intros Hgen.
  assert (Hrun : write_cube_file p size fs = (Raise e, fs)).
  { unfold write_cube_file, bind, lift. now rewrite Hgen. }
  split; [exact Hrun|].
  destruct (Z.eq_dec size 1) as [->|Hone].
  - rewrite generate_lut_one in Hgen. injection Hgen as <-. now split.
  - rewrite generate_lut_grid in Hgen by lia. discriminate.
Qed.

Lemma write_cube_file_generator_failure_witness :
  write_cube_file ["lut.cube"%string] 1
    (fs_set empty_fs ["lut.cube"%string] (File "old"))
  = (Raise ZeroDivisionError,
     fs_set empty_fs ["lut.cube"%string] (File "old")).
Proof.
  apply (write_cube_file_generator_failure ["lut.cube"%string] 1
           (fs_set empty_fs ["lut.cube"%string] (File "old"))
           ZeroDivisionError).
  reflexivity.
Defined.

(** X10.  With a size of 0 or below the generator yields no sample and the
    writer still writes a file: the four header lines, declaring that
    size, and no data line. *)
Theorem write_cube_file_nonpositive_size (p : path) (size : Z) (fs : FS) :
  (size <= 0)%Z ->
  fs_get fs (parent p) = Some Dir ->
  fs_get fs p <> Some Dir ->
  exists fs',
    write_cube_file p size fs = (Ok tt, fs')
    /\ fs' p = Some (File (TITLE_LINE
                           ++ ("LUT_3D_SIZE " ++ str_int size ++ nl)
                           ++ ("DOMAIN_MIN 0.0 0.0 0.0" ++ nl)
                           ++ ("DOMAIN_MAX 1.0 1.0 1.0" ++ nl))).
Proof.
  intros Hsize Hparent Hp.
  destruct (write_cube_file_spec p size [] fs
              (generate_lut_nonpositive size Hsize) Hparent Hp)
    as (fs' & Hrun & Hfile & _).
  exists fs'. split; [exact Hrun|]. rewrite Hfile. reflexivity.
Qed.

Lemma write_cube_file_nonpositive_size_witness :
  exists fs',
    write_cube_file ["lut.cube"%string] (-2) empty_fs = (Ok tt, fs')
    /\ fs' ["lut.cube"%string]
       = Some (File (TITLE_LINE
                     ++ ("LUT_3D_SIZE -2" ++ nl)
                     ++ ("DOMAIN_MIN 0.0 0.0 0.0" ++ nl)
                     ++ ("DOMAIN_MAX 1.0 1.0 1.0" ++ nl))).
Proof.
  apply (write_cube_file_nonpositive_size ["lut.cube"%string] (-2) empty_fs);
    [lia|reflexivity|discriminate].
Defined.

(** X11.  Running [main] a second time succeeds and changes nothing: the
    directories exist already, the file is truncated and written again
    with the same text. *)
Theorem main_rerun (anchor : path) (d f : string) (fs : FS) :
  (forall q content,
     on_the_way [] (anchor // "assets" // "luts") q ->
     fs q <> Some (File content)) ->
  fs (anchor // "assets" // "luts" // "ReSyne_Display_v1.cube") <> Some Dir ->
  exists fs1 fs2,
    main (anchor // d // f) fs = (Ok tt, fs1)
    /\ main (anchor // d // f) fs1 = (Ok tt, fs2)
    /\ forall q, fs2 q = fs1 q.
Proof.
  intros Hfree Hout.
  destruct (main_spec anchor d f fs _ generate_lut_default Hfree Hout)
    as (fs1 & Hrun1 & Hfile1 & Hdirs1 & _).
  destruct (main_spec anchor d f fs1 _ generate_lut_default)
    as (fs2 & Hrun2 & Hfile2 & Hdirs2 & Hframe2).
  - intros q content Hq. rewrite (Hdirs1 q Hq). discriminate.
  - rewrite Hfile1. discriminate.
  - exists fs1, fs2. split; [exact Hrun1|]. split; [exact Hrun2|]. intros q.
    destruct (list_eq_dec string_dec q
                (anchor // "assets" // "luts" // "ReSyne_Display_v1.cube"))
      as [->|Hne]; [congruence|].
    destruct (Classical_Prop.classic
                (on_the_way [] (anchor // "assets" // "luts") q)) as [Hon|Hoff].
    + now rewrite Hdirs1, Hdirs2.
    + now apply Hframe2.
Qed.

Lemma main_rerun_witness :
  exists fs1 fs2,
    main ["repo"; "src"; "utilities"; "generate_resyne_display_lut.py"]%string
      empty_fs = (Ok tt, fs1)
    /\ main ["repo"; "src"; "utilities"; "generate_resyne_display_lut.py"]%string
         fs1 = (Ok tt, fs2)
    /\ forall q, fs2 q = fs1 q.
Proof.
  apply (main_rerun ["repo"; "src"]%string "utilities"
           "generate_resyne_display_lut.py" empty_fs); discriminate.
Defined.

(** ** The shape of the text *)

Lemma count_nl_app (a b : string) :
  count_nl (a ++ b) = (count_nl a + count_nl b)%nat.
Proof. induction a as [|c a IH]; cbn; [reflexivity|rewrite IH; lia]. Qed.

Lemma string_length_app (a b : string) :
  String.length (a ++ b) = (String.length a + String.length b)%nat.
Proof. induction a as [|c a IH]; cbn; [reflexivity|now rewrite IH]. Qed.

Lemma count_nl_uint (d : Decimal.uint) :
  count_nl (NilEmpty.string_of_uint d) = O.
Proof. induction d; cbn; auto. Qed.

Lemma count_nl_str_int (z : Z) : count_nl (str_int z) = O.
Proof.
  unfold str_int, NilZero.string_of_int, NilZero.string_of_uint.
  destruct (Z.to_int z) as [d|d]; destruct d; cbn; auto using count_nl_uint.
Qed.

Lemma decimal_digit_cases (m : Z) :
  exists k, (k < 10)%nat /\ Z.to_nat (m mod 10) = k.
Proof.
  exists (Z.to_nat (m mod 10)). split; [|reflexivity].
  pose proof (Z.mod_pos_bound m 10 ltac:(lia)). lia.
Qed.

Lemma count_nl_zdigits (k : nat) (m : Z) : count_nl (zdigits k m) = O.
Proof.
  revert m. induction k as [|k IH]; intros m; cbn [zdigits]; [reflexivity|].
  rewrite count_nl_app, IH.
  destruct (decimal_digit_cases m) as (d & Hd & ->).
  do 10 (destruct d as [|d]; [reflexivity|]). lia.
Qed.

Lemma length_zdigits (k : nat) (m : Z) : String.length (zdigits k m) = k.
Proof.
  revert m. induction k as [|k IH]; intros m; cbn [zdigits]; [reflexivity|].
  rewrite string_length_app, IH. cbn. lia.
Qed.

Lemma count_nl_format_6f (x : R) : count_nl (format_6f x) = O.
Proof.
  unfold format_6f.
  rewrite !count_nl_app, count_nl_str_int, count_nl_zdigits.
  destruct (Rlt_dec x 0); reflexivity.
Qed.

Lemma count_nl_data_line (c : rgb) : count_nl (data_line c) = 1%nat.
Proof.
  destruct c as [[r g] b]. unfold data_line.
  rewrite !count_nl_app, !count_nl_format_6f. reflexivity.
Qed.

Lemma count_nl_data_lines (samples : list rgb) :
  count_nl (cat_lines (map data_line samples)) = length samples.
Proof.
  induction samples as [|c samples IH]; [reflexivity|].
  cbn [map cat_lines fold_right length]. fold (cat_lines (map data_line samples)).
  now rewrite count_nl_app, count_nl_data_line, IH.
Qed.

Lemma count_nl_header (size : Z) : count_nl (cat_lines (header_lines size)) = 4%nat.
Proof.
  cbn [header_lines cat_lines fold_right].
  rewrite !count_nl_app, count_nl_str_int. reflexivity.
Qed.

Lemma lut_grid_length_Z (size : Z) :
  Z.of_nat (length (lut_grid size)) = (Z.max size 0 ^ 3)%Z.
Proof.
  rewrite lut_grid_length, !Nat2Z.inj_mul.
  replace (Z.of_nat (Z.to_nat size)) with (Z.max size 0) by lia. ring.
Qed.

(** X12.  For every size other than 1 the written file has exactly
    [4 + size^3] line feeds (4 when the size is negative): every header
    field and every data field is free of line feeds, so the file has one
    line per header entry and one per sample. *)
Theorem write_cube_file_line_count (p : path) (size : Z) (fs : FS) :
  size <> 1%Z ->
  fs_get fs (parent p) = Some Dir ->
  fs_get fs p <> Some Dir ->
  exists fs' text,
    write_cube_file p size fs = (Ok tt, fs')
    /\ fs' p = Some (File text)
    /\ Z.of_nat (count_nl text) = (4 + Z.max size 0 ^ 3)%Z.
Proof.
  intros Hone Hparent Hp.
  assert (Hgen : generate_lut size = Ok (lut_grid size))
    by (apply generate_lut_grid; lia).
  destruct (write_cube_file_spec p size _ fs Hgen Hparent Hp)
    as (fs' & Hrun & Hfile & _).
  exists fs', (cube_text size (lut_grid size)).
  split; [exact Hrun|]. split; [exact Hfile|].
  unfold cube_text.
  rewrite cat_lines_app, count_nl_app, count_nl_header, count_nl_data_lines.
  rewrite Nat2Z.inj_add, lut_grid_length_Z. reflexivity.
Qed.

Lemma write_cube_file_line_count_witness :
  exists fs' text,
    write_cube_file ["lut.cube"%string] 3 empty_fs = (Ok tt, fs')
    /\ fs' ["lut.cube"%string] = Some (File text)
    /\ Z.of_nat (count_nl text) = 31%Z.
Proof.
  apply (write_cube_file_line_count ["lut.cube"%string] 3 empty_fs);
    [lia|reflexivity|discriminate].
Defined.

Lemma round_half_even_range (y : R) :
  0 <= y <= 1000000 -> (0 <= round_half_even y <= 1000000)%Z.
Proof.
  intros Hy. unfold round_half_even.
  pose proof (Zfloor_bound y) as Hfl.
  assert (H0 : (0 <= Zfloor y)%Z) by (apply Zfloor_lub; lra).
  assert (H1 : (Zfloor y <= 1000000)%Z).
  { apply le_IZR. lra. }
  destruct (Z.eq_dec (Zfloor y) 1000000) as [E|E].
  - rewrite E in *. destruct (Rlt_dec (y - 1000000) (1 / 2)); [lia|lra].
  - destruct (Rlt_dec _ _); [lia|].
    destruct (Rlt_dec _ _); [lia|]. destruct (Z.even _); lia.
Qed.

Lemma length_format_6f (x : R) :
  0 <= x <= 1 -> String.length (format_6f x) = 8%nat.
Proof.
  intros Hx. unfold format_6f.
  rewrite Rabs_pos_eq by lra.
  pose proof (round_half_even_range (x * 1000000) ltac:(lra)) as Hn.
  set (n := round_half_even (x * 1000000)) in *. clearbody n.
  destruct (Rlt_dec x 0) as [Hneg|_]; [lra|].
  rewrite !string_length_app, length_zdigits.
  assert (Hq : (n / 1000000 = 0 \/ n / 1000000 = 1)%Z).
  { destruct (Z.eq_dec n 1000000) as [->|Hne]; [now right|left].
    apply Z.div_small. lia. }
  destruct Hq as [-> | ->]; reflexivity.
Qed.

Lemma length_data_line (c : rgb) :
  in_unit_cube c -> String.length (data_line c) = 27%nat.
Proof.
  destruct c as [[r g] b]. intros (Hr & Hg & Hb). unfold data_line.
  rewrite !string_length_app, !length_format_6f by assumption. reflexivity.
Qed.

Lemma length_data_lines (samples : list rgb) :
  Forall in_unit_cube samples ->
  String.length (cat_lines (map data_line samples)) = (27 * length samples)%nat.
Proof.
  induction 1 as [|c samples Hc _ IH]; [reflexivity|].
  cbn [map cat_lines fold_right length]. fold (cat_lines (map data_line samples)).
  rewrite string_length_app, length_data_line, IH by assumption. lia.
Qed.

Lemma lut_grid_in_unit_cube (size : Z) : Forall in_unit_cube (lut_grid size).
Proof.
  unfold lut_grid.
  apply Forall_flat_map, Forall_forall. intros b _.
  apply Forall_flat_map, Forall_forall. intros g _.
  apply Forall_flat_map, Forall_forall. intros r _.
  constructor; [apply grid_sample_in_unit_cube|constructor].
Qed.

(** X13.  The data lines have a fixed width: every channel of every
    sample is printed with 8 characters (one digit, the point, six digits),
    so every data line is 27 characters with its line feed, and the file
    is its header (111 characters and the digits of the size) followed by
    [27 * size^3] characters. *)
Theorem write_cube_file_length (p : path) (size : Z) (fs : FS) :
  size <> 1%Z ->
  fs_get fs (parent p) = Some Dir ->
  fs_get fs p <> Some Dir ->
  exists fs' samples,
    generate_lut size = Ok samples
    /\ write_cube_file p size fs = (Ok tt, fs')
    /\ fs' p
       = Some (File (cat_lines (header_lines size ++ map data_line samples)))
    /\ Forall (fun '(r, g, b) =>
                String.length (format_6f r) = 8%nat
                /\ String.length (format_6f g) = 8%nat
                /\ String.length (format_6f b) = 8%nat
                /\ String.length (data_line (r, g, b)) = 27%nat) samples
    /\ Z.of_nat (String.length
                   (cat_lines (header_lines size ++ map data_line samples)))
       = (111 + Z.of_nat (String.length (str_int size))
          + 27 * Z.max size 0 ^ 3)%Z.
Proof.
  intros Hone Hparent Hp.
  assert (Hgen : generate_lut size = Ok (lut_grid size))
    by (apply generate_lut_grid; lia).
  destruct (write_cube_file_spec p size _ fs Hgen Hparent Hp)
    as (fs' & Hrun & Hfile & _).
  exists fs', (lut_grid size).
  split; [exact Hgen|]. split; [exact Hrun|]. split; [exact Hfile|]. split.
  - apply Forall_impl with (2 := lut_grid_in_unit_cube size).
    intros [[r g] b] Hc. pose proof (length_data_line _ Hc) as Hline.
    destruct Hc as (Hr & Hg & Hb).
    auto using length_format_6f.
  - rewrite cat_lines_app, string_length_app,
      (length_data_lines _ (lut_grid_in_unit_cube size)).
    cbn [header_lines cat_lines fold_right].
    rewrite !string_length_app.
    rewrite !Nat2Z.inj_add, Nat2Z.inj_mul, lut_grid_length_Z.
    change (String.length nl) with 1%nat.
    change (String.length TITLE_LINE) with 52%nat.
    cbn [String.length]. lia.
Qed.

Lemma write_cube_file_length_witness :
  exists fs' samples,
    generate_lut 3 = Ok samples
    /\ write_cube_file ["lut.cube"%string] 3 empty_fs = (Ok tt, fs')
    /\ fs' ["lut.cube"%string]
       = Some (File (cat_lines (header_lines 3 ++ map data_line samples)))
    /\ Forall (fun '(r, g, b) =>
                String.length (format_6f r) = 8%nat
                /\ String.length (format_6f g) = 8%nat
                /\ String.length (format_6f b) = 8%nat
                /\ String.length (data_line (r, g, b)) = 27%nat) samples
    /\ Z.of_nat (String.length
                   (cat_lines (header_lines 3 ++ map data_line samples)))
       = 841%Z.
Proof.
  apply (write_cube_file_length ["lut.cube"%string] 3 empty_fs);
    [lia|reflexivity|discriminate].
Defined.

(** * Looking a grid point up *)

(** X14.  A consumer finds the colour of the grid point [(r, g, b)] at
    index [b * size^2 + g * size + r] of the table: red varies fastest,
    blue slowest. *)
Theorem generate_lut_lookup (size r g b : Z) :
  (0 <= r < size)%Z -> (0 <= g < size)%Z -> (0 <= b < size)%Z ->
  size <> 1%Z ->
  exists samples c,
    generate_lut size = Ok samples
    /\ nth_error samples (Z.to_nat (b * size ^ 2 + g * size + r)) = Some c
    /\ map_to_preview_rgb (IZR r / IZR (size - 1)) (IZR g / IZR (size - 1))
         (IZR b / IZR (size - 1))
       = Ok c.
Proof.
  intros Hr Hg Hb Hone.
  exists (lut_grid size), (grid_sample size r g b).
  split; [apply generate_lut_grid; lia|].
  split; [|apply map_to_preview_rgb_grid_sample; assumption].
  replace (Z.to_nat (b * size ^ 2 + g * size + r))
    with (Z.to_nat b * (Z.to_nat size * Z.to_nat size)
          + (Z.to_nat g * Z.to_nat size + Z.to_nat r))%nat.
  - rewrite lut_grid_nth_error by lia. now rewrite !Z2Nat.id by lia.
  - apply Nat2Z.inj.
    rewrite !Nat2Z.inj_add, !Nat2Z.inj_mul, !Z2Nat.id; nia.
Qed.

Lemma generate_lut_lookup_witness :
  exists samples c,
    generate_lut 33 = Ok samples
    /\ nth_error samples (Z.to_nat (2 * 33 ^ 2 + 5 * 33 + 32)) = Some c
    /\ map_to_preview_rgb (IZR 32 / IZR (33 - 1)) (IZR 5 / IZR (33 - 1))
         (IZR 2 / IZR (33 - 1))
       = Ok c.
Proof.
  apply (generate_lut_lookup 33 32 5 2); lia.
Defined.
